(** * PyCrafters: the in-browser execution and grading pipeline of CodeRunner

    A shallow embedding of [src/components/CodeRunner.tsx] (and of the older
    variant of the same component) together with the properties its
    specification states about input virtualisation, output capture,
    grading and suite orchestration.

    Conventions of the embedding.
    - A JavaScript string is a sequence of code units; the model carries
      the code units 0..255 as [ascii].  The banner literals that contain
      symbols outside that range are carried as their UTF-8 bytes; no
      operation of the model inspects them.
    - A JavaScript number is an IEEE 754 binary64 value, modelled by the
      Standard Library's [spec_float] at precision 53 and [emax] 1024.
    - Closures over mutable locals (the input readers) become an explicit
      state with a step function.
    - The interpreter (Pyodide) is external: a program is an interaction
      tree over input reads that ends by completing, raising or outliving
      the deadline; what it printed is the text of the captured sink. *)

From Stdlib Require Import ZArith Bool List Ascii String Lia SpecFloat.
From stdpp Require Import base option list strings gmap.

Local Open Scope string_scope.
Local Open Scope Z_scope.

(** ** The language built-ins the component calls *)

Module JS.

(** [WhiteSpace] and [LineTerminator] code units below 256: TAB, LF, VT,
    FF, CR, SP and NBSP.  This is the set of [String.prototype.trim], of
    the regular expression class [\s] and of [StringToNumber]. *)
Definition isWhiteSpace (c : ascii) : bool :=
  let n := nat_of_ascii c in
  ((9 <=? n) && (n <=? 13) || (n =? 32) || (n =? 160))%nat.

Definition isEmpty (s : string) : bool :=
  match s with EmptyString => true | String _ _ => false end.

Fixpoint trimStart (s : string) : string :=
  match s with
  | String c r => if isWhiteSpace c then trimStart r else s
  | EmptyString => EmptyString
  end.

Fixpoint trimEnd (s : string) : string :=
  match s with
  | String c r =>
      let r' := trimEnd r in
      if isWhiteSpace c && isEmpty r' then EmptyString else String c r'
  | EmptyString => EmptyString
  end.

(** [s.trim()] *)
Definition trim (s : string) : string := trimEnd (trimStart s).

(** Lower-casing of one code unit: A-Z, and the Latin-1 capitals
    0xC0-0xDE other than the multiplication sign 0xD7. *)
Definition lowerChar (c : ascii) : ascii :=
  let n := nat_of_ascii c in
  if ((65 <=? n) && (n <=? 90)
      || (192 <=? n) && (n <=? 222) && negb (n =? 215))%nat
  then ascii_of_nat (n + 32) else c.

(** [s.toLowerCase()] *)
Fixpoint toLowerCase (s : string) : string :=
  match s with
  | String c r => String (lowerChar c) (toLowerCase r)
  | EmptyString => EmptyString
  end.

(** Prepends a code unit to the first piece of a split under
    construction. *)
Definition consHead (c : ascii) (pieces : list string) : list string :=
  match pieces with
  | h :: t => String c h :: t
  | [] => [String c EmptyString]
  end.

(** [s.split(/[cls]+/)] for a character class [cls]: the pieces between
    the maximal runs of class members, empty pieces at the ends
    included.  [inRun] tells that the previous code unit belonged to the
    separator being consumed. *)
Fixpoint splitRuns (cls : ascii -> bool) (inRun : bool) (s : string)
  : list string :=
  match s with
  | EmptyString => [EmptyString]
  | String c r =>
      if cls c
      then (if inRun then splitRuns cls true r
            else EmptyString :: splitRuns cls true r)
      else consHead c (splitRuns cls false r)
  end.

Definition isLF (c : ascii) : bool := (nat_of_ascii c =? 10)%nat.
Definition isCR (c : ascii) : bool := (nat_of_ascii c =? 13)%nat.

(** The class of [/\s+/] and the class of [/[\s\n]+/]. *)
Definition cls_s : ascii -> bool := isWhiteSpace.
Definition cls_s_n (c : ascii) : bool := isWhiteSpace c || isLF c.

(** [s.split(/\r?\n/)] *)
Fixpoint splitLines (s : string) : list string :=
  match s with
  | EmptyString => [EmptyString]
  | String c r =>
      if isLF c then EmptyString :: splitLines r
      else
        match r with
        | String c' r' =>
            if isCR c && isLF c' then EmptyString :: splitLines r'
            else consHead c (splitLines r)
        | EmptyString => consHead c (splitLines r)
        end
  end.

(** [xs.filter(Boolean)] on an array of strings: the empty string is the
    only falsy string. *)
Definition filterBoolean (xs : list string) : list string :=
  List.filter (fun x => negb (isEmpty x)) xs.

(** *** Numbers *)

Definition prec : Z := 53.
Definition emax : Z := 1024.

Definition number := spec_float.

Definition isNaN (x : number) : bool :=
  match x with S754_nan => true | _ => false end.

Definition abs (x : number) : number := SFabs x.
Definition sub (x y : number) : number := SFsub prec emax x y.
Definition ltb (x y : number) : bool := SFltb x y.

(** The number value of the rational [(-1)^neg * m * 10^e10], rounded to
    the nearest binary64, ties to even. *)
Definition ofDecimal (neg : bool) (m : Z) (e10 : Z) : number :=
  match m with
  | Z0 => S754_zero neg
  | Zpos p =>
      match e10 with
      | Zneg k =>
          let '(q, e, l) :=
            SFdiv_core_binary prec emax m 0 (Z.pow_pos 10 k) 0 in
          binary_round_aux prec emax neg q e l
      | _ => binary_normalize prec emax
               (if neg then Z.opp (m * 10 ^ e10) else m * 10 ^ e10) 0 neg
      end
  | Zneg _ => S754_nan
  end.

Definition digitVal (base : Z) (c : ascii) : option Z :=
  let n := Z.of_nat (nat_of_ascii c) in
  let v :=
    if (48 <=? n) && (n <=? 57) then n - 48
    else if (97 <=? n) && (n <=? 102) then n - 87
    else if (65 <=? n) && (n <=? 70) then n - 55
    else 99 in
  if v <? base then Some v else None.

(** Reads the longest prefix of base-[base] digits: the accumulated
    value, the number of digits read and the rest. *)
Fixpoint takeDigits (base acc : Z) (n : nat) (s : string)
  : Z * nat * string :=
  match s with
  | String c r =>
      match digitVal base c with
      | Some v => takeDigits base (base * acc + v) (S n) r
      | None => (acc, n, s)
      end
  | EmptyString => (acc, n, s)
  end.

(** [ExponentPart], when the whole of [s] is one. *)
Definition exponentPart (s : string) : option Z :=
  match s with
  | String c r =>
      if (nat_of_ascii c =? 101)%nat || (nat_of_ascii c =? 69)%nat then
        let '(neg, r1) :=
          match r with
          | String "-" r' => (true, r')
          | String "+" r' => (false, r')
          | _ => (false, r)
          end in
        match takeDigits 10 0 0 r1 with
        | (v, S _, EmptyString) => Some (if neg then - v else v)
        | _ => None
        end
      else None
  | EmptyString => Some 0
  end.

(** [StrUnsignedDecimalLiteral] *)
Definition unsignedDecimal (neg : bool) (s : string) : number :=
  if String.eqb s "Infinity" then S754_infinity neg
  else
    let '(ip, ni, r1) := takeDigits 10 0 0 s in
    let '(m, nf, r2) :=
      match r1 with
      | String "." r' => takeDigits 10 ip 0 r'
      | _ => (ip, 0%nat, r1)
      end in
    match (ni + nf)%nat, exponentPart r2 with
    | S _, Some e => ofDecimal neg m (e - Z.of_nat nf)
    | _, _ => S754_nan
    end.

(** [NonDecimalIntegerLiteral] digits in base [base]. *)
Definition nonDecimal (base : Z) (s : string) : number :=
  match takeDigits base 0 0 s with
  | (v, S _, EmptyString) => ofDecimal false v 0
  | _ => S754_nan
  end.

(** [Number(s)] on a string: [StringToNumber]. *)
Definition Number (s : string) : number :=
  match trim s with
  | EmptyString => S754_zero false
  | String "0" (String "x" r) | String "0" (String "X" r) => nonDecimal 16 r
  | String "0" (String "o" r) | String "0" (String "O" r) => nonDecimal 8 r
  | String "0" (String "b" r) | String "0" (String "B" r) => nonDecimal 2 r
  | String "-" r => unsignedDecimal true r
  | String "+" r => unsignedDecimal false r
  | t => unsignedDecimal false t
  end.

(** The literal [1e-2]. *)
Definition lit_1e_2 : number := Eval vm_compute in Number "1e-2".

End JS.

(** ** Data model *)

Record TestCase := { input : string; output : string; hidden : bool }.

(** An entry of the problem bank [allQuestions] (declared outside the
    component): the fields the component reads. *)
Record Question := { id : string; level : string; input_format : string }.

(** ** Input Virtualizer: the [inputProcessor] closures of [runCode] *)

Module Reader.

(** What one call of the installed [input] hook does. *)
Inductive readResult :=
| Token (s : string)
| Undefined
| Throws (msg : string).

Definition exhausted : string := "No more input values available".

(** The mutable locals each closure captures. *)
Inductive reader :=
| Single (inputValue : string)
| SpaceSeparated (numbers : list string) (index : nat)
| Multiline (lines : list string) (lineIndex : nat)
            (currentLineNumbers : list string) (numberIndex : nat)
| WithOperator (parts : list string) (index : nat)
| Fallback (values : list string) (index : nat).

(** [xs[i]] on an array of strings. *)
Definition at_index (xs : list string) (i : nat) : readResult :=
  match xs !! i with
  | Some s => Token s
  | None => Undefined
  end.

(** The body repeated in the three sequential closures. *)
Definition next (xs : list string) (index : nat) : readResult * nat :=
  if (index <? length xs)%nat then (at_index xs index, S index)
  else (Throws exhausted, index).

(** Selection of the closure by the problem's format tag. *)
Definition make (inputFormat input : string) : reader :=
  if String.eqb inputFormat "single_integer"
     || String.eqb inputFormat "single_string"
  then Single input
  else if String.eqb inputFormat "space_separated_integers"
  then SpaceSeparated
         (JS.filterBoolean (JS.splitRuns JS.cls_s false input)) 0
  else if String.eqb inputFormat "multiline_integers"
  then Multiline (JS.filterBoolean (JS.splitLines input)) 0 [] 0
  else if String.eqb inputFormat "space_separated_with_operator"
  then WithOperator
         (JS.filterBoolean (JS.splitRuns JS.cls_s false input)) 0
  else Fallback (JS.filterBoolean (JS.splitRuns JS.cls_s_n false input)) 0.

(** One call of [inputProcessor]. *)
Definition inputProcessor (r : reader) : readResult * reader :=
  match r with
  | Single inputValue => (Token inputValue, Single EmptyString)
  | SpaceSeparated numbers index =>
      let '(v, i) := next numbers index in (v, SpaceSeparated numbers i)
  | Multiline lines lineIndex currentLineNumbers numberIndex =>
      if (numberIndex <? length currentLineNumbers)%nat
      then (at_index currentLineNumbers numberIndex,
            Multiline lines lineIndex currentLineNumbers (S numberIndex))
      else if (lineIndex <? length lines)%nat
      then
        let line := default EmptyString (lines !! lineIndex) in
        let nums := JS.filterBoolean (JS.splitRuns JS.cls_s false line) in
        (at_index nums 0, Multiline lines (S lineIndex) nums 1)
      else (Throws exhausted, r)
  | WithOperator parts index =>
      let '(v, i) := next parts index in (v, WithOperator parts i)
  | Fallback values index =>
      let '(v, i) := next values index in (v, Fallback values i)
  end.

(** The results of the first [n] calls. *)
Fixpoint reads (n : nat) (r : reader) : list readResult :=
  match n with
  | O => []
  | S k => let '(v, r') := inputProcessor r in v :: reads k r'
  end.

(** The result of call number [n], counted from 0. *)
Fixpoint readAt (n : nat) (r : reader) : readResult :=
  match n with
  | O => fst (inputProcessor r)
  | S k => readAt k (snd (inputProcessor r))
  end.

End Reader.

(** ** The interpreter boundary *)

Module Interp.
Import Reader.

(** How the awaited [runPythonAsync(code)] ends under [withTimeout], for a
    run that settles.  [withTimeout] is a bare [Promise.race]: it cannot
    interrupt the interpreter, so the timer fires only when the run yields
    to the event loop.  [Outlives] is a run whose timer fires first.  A
    run that never yields never settles, and a detached run may still act
    on the interpreter later; neither is expressed here, and the
    statements about runs are conditional on the outcomes listed. *)
Inductive settle :=
| Completes
| Raises (msg : string)
| Outlives.

(** A user program from the component's side: it calls the [input] hook
    some number of times and ends; [printed] is the text accumulated in
    [sys.stdout] at that point, [G] the interpreter's globals, which
    persist from one run to the next. *)
Inductive prog (G : Type) :=
| Halt (printed : string) (how : settle) (g : G)
| CallInput (k : readResult -> prog G).
Arguments Halt {G}.
Arguments CallInput {G}.

Fixpoint exec {G} (p : prog G) (r : reader) : string * settle * G :=
  match p with
  | Halt printed how g => (printed, how, g)
  | CallInput k => let '(v, r') := inputProcessor r in exec (k v) r'
  end.

End Interp.

(** ** Grading Engine *)

Module Grading.

Definition normalize (s : string) : string := JS.toLowerCase (JS.trim s).

Definition tryParseFloat (s : string) : option JS.number :=
  let n := JS.Number s in
  if JS.isNaN n then None else Some n.

(** The comparison block of [handleRun] (lines 266-281) and of
    [handleSubmit] (lines 320-334); the two copies differ in the names of
    their locals only. *)
Definition passed (expected actualOutput : string) : bool :=
  let normalizedExpected := normalize expected in
  let normalizedActual := normalize actualOutput in
  let expectedFloat := tryParseFloat normalizedExpected in
  let actualFloat := tryParseFloat normalizedActual in
  match expectedFloat, actualFloat with
  | Some e, Some a => JS.ltb (JS.abs (JS.sub e a)) JS.lit_1e_2
  | _, _ => String.eqb normalizedActual normalizedExpected
  end.

End Grading.

(** ** The older variant of the component (the second source file) *)

Module Legacy.

(** The comparison of its [handleRun] (lines 196-201) and [handleSubmit]
    (lines 265-270): [captured] is the text gathered by the replaced
    [print]. *)
Definition passed (expected captured : string) : bool :=
  let actualOutput := JS.trim captured in
  let normalizedExpected := JS.toLowerCase expected in
  let normalizedActual := JS.toLowerCase actualOutput in
  String.eqb normalizedActual normalizedExpected.

End Legacy.

(** ** Execution Supervisor and Test Orchestrator *)

Definition nl : string := String (ascii_of_nat 10) EmptyString.

(** [a || b] on strings. *)
Definition orElse (a b : string) : string :=
  if JS.isEmpty a then b else a.

(** [xs.join("\n")] *)
Fixpoint join (xs : list string) : string :=
  match xs with
  | [] => EmptyString
  | [x] => x
  | x :: rest => x +:+ nl +:+ join rest
  end.

Definition timeLimitMsg : string := "⏰ Time limit exceeded".
Definition noOutput : string := "[no output]".
Definition notFoundMsg : string := "Question not found".
Definition hiddenFailedMsg : string :=
  "Some hidden test cases failed. Check for edge cases!".
Definition successBanner : string := "🎉 All tests passed!".
Definition runPassBanner : string := "🔥 You did it!!".
Definition runFailBanner : string := "😢 Try again!".

(** The engine's messages for reading [testCase.input] of the
    [undefined] that [tests[0]] is on an empty suite, and for calling
    [runPythonAsync] on a missing interpreter. *)
Definition typeErrorMsg : string :=
  "Cannot read properties of undefined (reading 'input')".

Definition nullInterpreterMsg : string :=
  "Cannot read properties of null (reading 'runPythonAsync')".

(** [`Error: ${e.message || e}`] for an [Error] with message [msg]. *)
Definition errorReport (msg : string) : string :=
  "Error: " +:+ orElse msg "Error".

Record User := { uid : string }.

(** A user document of the progress store, as far as the component writes
    it: the nested map [solved], the field [lastSolved] and the fields
    [solved_<id>], keyed here by [<id>]. *)
Record UserDoc := {
  solved : gmap string bool;
  lastSolved : option string;
  solvedAt : gmap string Z
}.

Definition emptyDoc : UserDoc :=
  {| solved := ∅; lastSolved := None; solvedAt := ∅ |}.

(** The merge that [setDoc(ref, data, { merge: true })] performs for the
    data the component sends. *)
Definition mergeSolved (questionId iso : string) (timestamp : Z)
    (d : UserDoc) : UserDoc :=
  {| solved := <[questionId := true]> (solved d);
     lastSolved := Some iso;
     solvedAt := <[questionId := timestamp]> (solvedAt d) |}.

(** Calls that leave the component, in the order they are made. *)
Inductive event :=
| EvRun (testCase : TestCase)
| EvSetDoc (uid questionId : string) (timestamp : Z).

(** The aggregates [handleSubmit] keeps over its loop. *)
Record verdict := {
  allPassed : bool;
  lines : list string;
  anyHiddenFailed : bool
}.

Section Component.
Import Interp.

(** The interpreter's globals and the meaning of a source text. *)
Variable G : Type.
Variable python : string -> G -> prog G.

(** Props and collaborators the handlers read. *)
Record Env := {
  questionId : string;
  tests : list TestCase;
  allQuestions : list Question;
  user : option User;
  now : Z;                      (* Date.now() *)
  nowISO : string;              (* new Date().toISOString() *)
  storeFault : option string    (* the message setDoc rejects with *)
}.

(** Component state, the store behind [webDb] and the calls made. *)
Record World := {
  st_code : string;
  st_output : string;
  st_pyodide : option G;
  st_loading : bool;
  st_solvedMap : gmap string bool;
  db : gmap string UserDoc;
  trace : list event
}.

Definition setOutput (s : string) (w : World) : World :=
  {| st_code := st_code w; st_output := s; st_pyodide := st_pyodide w;
     st_loading := st_loading w; st_solvedMap := st_solvedMap w;
     db := db w; trace := trace w |}.

Definition setSolvedMap (f : gmap string bool -> gmap string bool)
    (w : World) : World :=
  {| st_code := st_code w; st_output := st_output w;
     st_pyodide := st_pyodide w; st_loading := st_loading w;
     st_solvedMap := f (st_solvedMap w); db := db w; trace := trace w |}.

Definition afterRun (testCase : TestCase) (g : G) (w : World) : World :=
  {| st_code := st_code w; st_output := st_output w;
     st_pyodide := Some g; st_loading := st_loading w;
     st_solvedMap := st_solvedMap w; db := db w;
     trace := (trace w ++ [EvRun testCase])%list |}.

Definition afterSetDoc (u q : string) (ts : Z)
    (newdb : gmap string UserDoc) (w : World) : World :=
  {| st_code := st_code w; st_output := st_output w;
     st_pyodide := st_pyodide w; st_loading := st_loading w;
     st_solvedMap := st_solvedMap w; db := newdb;
     trace := (trace w ++ [EvSetDoc u q ts])%list |}.

(** [runCode]: [inl] is the resolved output, [inr] the message of the
    [Error] it rejects with.  The statement that rebinds [sys.stdout] to a
    fresh sink is taken to succeed and the program to leave that binding
    alone, so [printed] is the text of this run alone and
    [sys.stdout.getvalue()] returns it on either path. *)
Definition runCode (testCase : TestCase) (question : Question)
    (w : World) : (string + string) * World :=
  match st_pyodide w with
  | None => (inr nullInterpreterMsg, w)
  | Some g =>
      let inputProcessor :=
        Reader.make (input_format question) (input testCase) in
      let '(printed, how, g') := exec (python (st_code w) g) inputProcessor in
      let w' := afterRun testCase g' w in
      match how with
      | Completes => (inl (orElse (JS.trim printed) noOutput), w')
      | Raises msg => (inr (orElse printed msg), w')
      | Outlives => (inr (orElse printed timeLimitMsg), w')
      end
  end.

Definition findQuestion (e : Env) : option Question :=
  List.find (fun q => String.eqb (id q) (questionId e)) (allQuestions e).

Definition ready (w : World) : bool :=
  negb (st_loading w) && bool_decide (is_Some (st_pyodide w)).

(** [handleRun].  On an empty suite [tests[0]] is [undefined]: [runCode]
    rebinds the sink and then fails on [testCase.input]; the rebinding
    leaves no mark on the state kept here. *)
Definition handleRun (e : Env) (w : World) : World :=
  if negb (ready w) then w
  else
    let w := setOutput EmptyString w in
    match findQuestion e with
    | None => setOutput (errorReport notFoundMsg) w
    | Some question =>
        match tests e with
        | [] => setOutput (errorReport typeErrorMsg) w
        | t0 :: _ =>
            match runCode t0 question w with
            | (inl rawActualOutput, w) =>
                let passed := Grading.passed (output t0) rawActualOutput in
                let status :=
                  if passed then runPassBanner else runFailBanner in
                let message :=
                  "Input:" +:+ nl +:+ input t0 +:+ nl +:+ nl +:+
                  "Expected Output:" +:+ nl +:+ output t0 +:+ nl +:+ nl +:+
                  "Your Output:" +:+ nl +:+ rawActualOutput +:+ nl +:+ nl +:+
                  status in
                setOutput message w
            | (inr msg, w) => setOutput (errorReport msg) w
            end
        end
    end.

Definition failDetail (testCase : TestCase) (actualOutput : string)
  : list string :=
  [ "Input:" +:+ nl +:+ input testCase +:+ nl;
    "Expected Output:" +:+ nl +:+ output testCase +:+ nl;
    "Your Output:" +:+ nl +:+ actualOutput +:+ nl ].

Definition errorDetail (testCase : TestCase) (msg : string)
  : list string :=
  [ "Input:" +:+ nl +:+ input testCase +:+ nl;
    "Error: " +:+ msg +:+ nl ].

(** What a test that did not pass does to the aggregates. *)
Definition recordFailure (testCase : TestCase) (detail : list string)
    (v : verdict) : verdict :=
  if hidden testCase
  then {| allPassed := false; lines := lines v; anyHiddenFailed := true |}
  else {| allPassed := false; lines := (lines v ++ detail)%list;
          anyHiddenFailed := anyHiddenFailed v |}.

(** One iteration of the [for] loop of [handleSubmit]. *)
Definition submitStep (question : Question) (testCase : TestCase)
    (s : verdict * World) : verdict * World :=
  let '(v, w) := s in
  match runCode testCase question w with
  | (inl actualOutput, w') =>
      if Grading.passed (output testCase) actualOutput then (v, w')
      else (recordFailure testCase (failDetail testCase actualOutput) v, w')
  | (inr msg, w') =>
      (recordFailure testCase (errorDetail testCase msg) v, w')
  end.

Fixpoint submitLoop (question : Question) (ts : list TestCase)
    (s : verdict * World) : verdict * World :=
  match ts with
  | [] => s
  | t :: rest => submitLoop question rest (submitStep question t s)
  end.

Definition signedIn (e : Env) : option string :=
  match user e with
  | Some u => if JS.isEmpty (uid u) then None else Some (uid u)
  | None => None
  end.

(** What [handleSubmit] does once the loop is over (lines 361-385). *)
Definition conclude (e : Env) (v : verdict) (w : World) : World :=
  if anyHiddenFailed v then setOutput hiddenFailedMsg w
  else
    match (if allPassed v then signedIn e else None) with
    | Some u =>
        let lines' := (lines v ++ [EmptyString; successBanner])%list in
        match storeFault e with
        | Some msg =>
            setOutput (errorReport msg)
              (afterSetDoc u (questionId e) (now e) (db w) w)
        | None =>
            let doc := default emptyDoc (db w !! u) in
            let newdb :=
              <[u := mergeSolved (questionId e) (nowISO e) (now e) doc]>
                (db w) in
            let w := afterSetDoc u (questionId e) (now e) newdb w in
            let w :=
              setSolvedMap (fun prev => <[questionId e := true]> prev) w in
            setOutput (join lines') w
        end
    | None => setOutput (join (lines v)) w
    end.

Definition handleSubmit (e : Env) (w : World) : World :=
  if negb (ready w) then w
  else
    let w := setOutput EmptyString w in
    match findQuestion e with
    | None => setOutput (errorReport notFoundMsg) w
    | Some question =>
        let '(v, w) :=
          submitLoop question (tests e)
            ({| allPassed := true; lines := [];
                anyHiddenFailed := false |}, w) in
        conclude e v w
    end.

End Component.

Arguments runCode {G}.
Arguments handleRun {G}.
Arguments handleSubmit {G}.
Arguments submitStep {G}.
Arguments submitLoop {G}.
Arguments setOutput {G}.
Arguments ready {G}.
Arguments conclude {G}.
Arguments st_code {G}.
Arguments st_output {G}.
Arguments st_pyodide {G}.
Arguments st_loading {G}.
Arguments st_solvedMap {G}.
Arguments db {G}.
Arguments trace {G}.
Arguments afterRun {G}.
Arguments afterSetDoc {G}.
Arguments setSolvedMap {G}.

(** ** The specification's wording of the grading rule *)

Module Spec.

(** "attempt numeric parse": the text denotes the number [x]. *)
Definition parses (s : string) (x : JS.number) : Prop :=
  JS.Number s = x /\ JS.isNaN x = false.

(** "|actual - expected| < 1e-2" *)
Definition close (a e : JS.number) : Prop :=
  JS.ltb (JS.abs (JS.sub a e)) JS.lit_1e_2 = true.

(** "trim and lower-case both; attempt numeric parse on both; if both
    parse, pass iff |actual - expected| < 1e-2; otherwise pass iff
    normalized strings are exactly equal." *)
Definition grade (actual expected : string) : Prop :=
  let a := JS.toLowerCase (JS.trim actual) in
  let e := JS.toLowerCase (JS.trim expected) in
  (exists x y, parses a x /\ parses e y /\ close x y)
  \/ (~ (exists x y, parses a x /\ parses e y) /\ a = e).

End Spec.

(** ** Suite-level notions used to state the orchestration properties *)

Section Suite.
Context {G : Type}.
Variable python : string -> G -> Interp.prog G.

(** A test together with how its [runCode] settled. *)
Definition outcome : Type := TestCase * (string + string).

(** The outcomes of a suite run in order from [w]. *)
Fixpoint results (question : Question) (ts : list TestCase) (w : World G)
  : list outcome :=
  match ts with
  | [] => []
  | t :: rest =>
      let '(r, w') := runCode python t question w in
      (t, r) :: results question rest w'
  end.

(** The world after a suite has run. *)
Fixpoint worldAfter (question : Question) (ts : list TestCase)
    (w : World G) : World G :=
  match ts with
  | [] => w
  | t :: rest => worldAfter question rest (snd (runCode python t question w))
  end.
End Suite.

(** A test fails when its run rejects or its output is graded wrong. *)
Definition failed (x : outcome) : bool :=
  match snd x with
  | inl actualOutput => negb (Grading.passed (output (fst x)) actualOutput)
  | inr _ => true
  end.

Definition hiddenFailure (x : outcome) : bool := hidden (fst x) && failed x.

(** The detail block of one failing public test; nothing for the others. *)
Definition shownDetail (x : outcome) : list string :=
  if failed x && negb (hidden (fst x)) then
    match snd x with
    | inl actualOutput => failDetail (fst x) actualOutput
    | inr msg => errorDetail (fst x) msg
    end
  else [].

(** The aggregates as a summary of per-test outcomes. *)
Definition summary (rs : list outcome) : verdict :=
  {| allPassed := forallb (fun x => negb (failed x)) rs;
     lines := List.concat (List.map shownDetail rs);
     anyHiddenFailed := existsb hiddenFailure rs |}.

(** The aggregates of a loop continued from [v]. *)
Definition combine (v s : verdict) : verdict :=
  {| allPassed := allPassed v && allPassed s;
     lines := lines v ++ lines s;
     anyHiddenFailed := anyHiddenFailed v || anyHiddenFailed s |}.

Definition initialVerdict : verdict :=
  {| allPassed := true; lines := []; anyHiddenFailed := false |}.

(** Two outcomes look the same to someone who may see public tests in
    full and, of a hidden test, only whether it failed. *)
Definition sameView (x y : outcome) : Prop :=
  hidden (fst x) = hidden (fst y)
  /\ (if hidden (fst x) then failed x = failed y else x = y).

Definition withTests (e : Env) (ts : list TestCase) : Env :=
  {| questionId := questionId e; tests := ts;
     allQuestions := allQuestions e; user := user e; now := now e;
     nowISO := nowISO e; storeFault := storeFault e |}.

(** The tests handed to the interpreter, and the store writes, of a trace. *)
Definition runEvents (tr : list event) : list TestCase :=
  List.flat_map
    (fun ev => match ev with EvRun t => [t] | EvSetDoc _ _ _ => [] end) tr.

Definition setDocEvents (tr : list event) : list event :=
  List.filter
    (fun ev => match ev with EvRun _ => false | EvSetDoc _ _ _ => true end) tr.

(** "the report ends with [suffix]" *)
Definition endsWith (report suffix : string) : Prop :=
  exists before, report = before +:+ suffix.

(** ** A concrete session, used to exercise the statements *)

Module Scenario.
Import Interp Reader.

(** Reads one value and prints it. *)
Definition echo : prog unit :=
  CallInput (fun v =>
    match v with
    | Token s => Halt (s +:+ nl) Completes tt
    | Undefined => Halt ("None" +:+ nl) Completes tt
    | Throws msg => Halt EmptyString (Raises msg) tt
    end).

(** Reads two values and prints the second; an exhausted reader makes
    the read raise. *)
Definition second : prog unit :=
  CallInput (fun _ =>
    CallInput (fun v =>
      match v with
      | Token s => Halt (s +:+ nl) Completes tt
      | Undefined => Halt ("None" +:+ nl) Completes tt
      | Throws msg => Halt EmptyString (Raises msg) tt
      end)).

(** The interpreter on the few source texts of the session. *)
Definition python (code : string) (_ : unit) : prog unit :=
  if String.eqb code "print(input())" then echo
  else if String.eqb code "input(); print(input())" then second
  else if String.eqb code "print('partial'); raise ValueError('boom')"
  then Halt ("partial" +:+ nl) (Raises "ValueError: boom") tt
  else if String.eqb code "import asyncio; await asyncio.sleep(10)"
  then Halt EmptyString Outlives tt
  else Halt EmptyString Completes tt.

Definition question : Question :=
  {| id := "easy-100"; level := "easy"; input_format := "single_integer" |}.

Definition spaced : Question :=
  {| id := "easy-101"; level := "easy";
     input_format := "space_separated_integers" |}.

Definition test (i o : string) (h : bool) : TestCase :=
  {| input := i; output := o; hidden := h |}.

Definition env (qid : string) (ts : list TestCase) (u : option User) : Env :=
  {| questionId := qid; tests := ts; allQuestions := [question; spaced];
     user := u; now := 1700000000000;
     nowISO := "2023-11-14T22:13:20.000Z"; storeFault := None |}.

Definition world (code : string) : World unit :=
  {| st_code := code; st_output := EmptyString; st_pyodide := Some tt;
     st_loading := false; st_solvedMap := ∅; db := ∅; trace := [] |}.


Definition alice : option User := Some {| uid := "alice" |}.

End Scenario.

(** ** Notions used to state further properties of the readers *)

(** [input.split(/\s+/).filter(Boolean)] *)
Definition tokens (s : string) : list string :=
  JS.filterBoolean (JS.splitRuns JS.cls_s false s).

(** Whether some code unit of [s] satisfies [p]. *)
Fixpoint anyChar (p : ascii -> bool) (s : string) : bool :=
  match s with
  | EmptyString => false
  | String c r => p c || anyChar p r
  end.

(** A value as a test input spells it: not empty, no white space inside. *)
Definition clean (t : string) : bool :=
  negb (JS.isEmpty t) && negb (anyChar JS.isWhiteSpace t).

(** [xs.join(sep)] *)
Fixpoint joinWith (sep : string) (xs : list string) : string :=
  match xs with
  | [] => EmptyString
  | [x] => x
  | x :: rest => x +:+ sep +:+ joinWith sep rest
  end.

(** The first [n] reads of a reader that hands out [stream] and then
    throws the exhaustion error for ever. *)
Definition streamReads (stream : list Reader.readResult) (n : nat)
  : list Reader.readResult :=
  take n stream ++ replicate (n - length stream) (Reader.Throws Reader.exhausted).

(** What the multiline reader hands out for one line. *)
Definition lineReads (line : string) : list Reader.readResult :=
  match tokens line with
  | [] => [Reader.Undefined]
  | ts => List.map Reader.Token ts
  end.

(** ** The remaining effects of the component *)

(** The mount effect of lines 66-86, once [loadPyodide] has resolved with
    the instance [py]. *)
Definition init {G : Type} (py : G) (w : World G) : World G :=
  {| st_code := st_code w; st_output := st_output w; st_pyodide := Some py;
     st_loading := false; st_solvedMap := st_solvedMap w; db := db w;
     trace := trace w |}.

(** The effect of lines 141-150, once [getDoc] has resolved: without a
    uid nothing is read; a missing document changes nothing; otherwise
    the solved flags of the document replace [solvedMap]. *)
Definition loadSolved {G : Type} (e : Env) (w : World G) : World G :=
  match signedIn e with
  | None => w
  | Some u =>
      match db w !! u with
      | Some data => setSolvedMap (fun _ => solved data) w
      | None => w
      end
  end.

(** The same collaborators at another moment, or with a store that
    rejects writes. *)
Definition atTime (e : Env) (t : Z) (iso : string) : Env :=
  {| questionId := questionId e; tests := tests e;
     allQuestions := allQuestions e; user := user e; now := t;
     nowISO := iso; storeFault := storeFault e |}.

Definition withFault (e : Env) (msg : string) : Env :=
  {| questionId := questionId e; tests := tests e;
     allQuestions := allQuestions e; user := user e; now := now e;
     nowISO := nowISO e; storeFault := Some msg |}.

(** What can happen to the component, each with the collaborators of the
    moment. *)
Inductive action (G : Type) :=
| Boot (py : G)
| Run (e : Env)
| Submit (e : Env)
| LoadProgress (e : Env).
Arguments Boot {G}.
Arguments Run {G}.
Arguments Submit {G}.
Arguments LoadProgress {G}.

Definition perform {G : Type} (python : string -> G -> Interp.prog G)
    (a : action G) (w : World G) : World G :=
  match a with
  | Boot py => init py w
  | Run e => handleRun python e w
  | Submit e => handleSubmit python e w
  | LoadProgress e => loadSolved e w
  end.

Definition performAll {G : Type} (python : string -> G -> Interp.prog G)
    (acts : list (action G)) (w : World G) : World G :=
  fold_left (fun w a => perform python a w) acts w.

(** The report of [handleSubmit] read off the outcomes of the suite. *)
Definition reportOf (e : Env) (rs : list outcome) : string :=
  if existsb hiddenFailure rs then hiddenFailedMsg
  else if forallb (fun x => negb (failed x)) rs then
    match signedIn e with
    | Some _ =>
        match storeFault e with
        | Some msg => errorReport msg
        | None => nl +:+ successBanner
        end
    | None => EmptyString
    end
  else join (List.concat (List.map shownDetail rs)).

(** A problem is recorded as solved for user [u]. *)
Definition solvedInStore {G : Type} (w : World G) (u q : string) : Prop :=
  exists data, db w !! u = Some data /\ solved data !! q = Some true.

(** ** Navigation between problems (lines 88-139, 392-395 and 490-512) *)

Module Nav.

(** [s.split(sep)] for a separator of one code unit. *)
Fixpoint splitOn (sep : ascii) (s : string) : list string :=
  match s with
  | EmptyString => [EmptyString]
  | String c r =>
      if Ascii.eqb c sep then EmptyString :: splitOn sep r
      else JS.consHead c (splitOn sep r)
  end.

Definition levels : list string := ["easy"; "medium"; "hard"].

(** [xs.indexOf(x)] *)
Fixpoint indexOf (xs : list string) (x : string) : Z :=
  match xs with
  | [] => -1
  | y :: rest =>
      if String.eqb y x then 0
      else let i := indexOf rest x in if i <? 0 then -1 else i + 1
  end.

(** [xs[i]] for an integer [i]: [undefined] outside the array. *)
Definition at_ (xs : list string) (i : Z) : option string :=
  if i <? 0 then None else xs !! Z.to_nat i.

(** Truthiness of a string that may be [null] or [undefined]. *)
Definition truthy (o : option string) : bool :=
  match o with
  | Some s => negb (JS.isEmpty s)
  | None => false
  end.

(** [allQuestions.filter((q) => q.level === lvl).map((q) => q.id)] *)
Definition idsOfLevel (allQuestions : list Question) (lvl : string)
  : list string :=
  List.map id (List.filter (fun q => String.eqb (level q) lvl) allQuestions).

(** The state the effect sets. *)
Record NavState := {
  levelIds : list string;
  prevId : option string;
  nextId : option string
}.

(** [const [level] = questionId.split("-")] *)
Definition levelOf (questionId : string) : string :=
  hd EmptyString (splitOn "-" questionId).

(** The effect of lines 88-139. *)
Definition navigate (questionId : string) (allQuestions : list Question)
  : NavState :=
  let lvl := levelOf questionId in
  let ids := idsOfLevel allQuestions lvl in
  let idx := indexOf ids questionId in
  let prev :=
    if 0 <? idx then at_ ids (idx - 1)
    else
      let prevLevel := at_ levels (indexOf levels lvl - 1) in
      if truthy prevLevel then
        let prevIds :=
          idsOfLevel allQuestions (default EmptyString prevLevel) in
        if (0 <? Z.of_nat (length prevIds))
        then at_ prevIds (Z.of_nat (length prevIds) - 1)
        else None
      else None in
  let next :=
    if (0 <=? idx) && (idx <? Z.of_nat (length ids) - 1)
    then at_ ids (idx + 1)
    else
      let nextLevel := at_ levels (indexOf levels lvl + 1) in
      if truthy nextLevel then
        let nextIds :=
          idsOfLevel allQuestions (default EmptyString nextLevel) in
        if (0 <? Z.of_nat (length nextIds)) then at_ nextIds 0 else None
      else None in
  {| levelIds := ids; prevId := prev; nextId := next |}.

(** Lines 393-395. *)
Definition isLastInLevel (questionId : string) (ids : list string) : bool :=
  indexOf ids questionId =? Z.of_nat (length ids) - 1.

(** The names every plain object inherits from [Object.prototype]; each
    of them reads as a truthy value. *)
Definition inherited (key : string) : bool :=
  bool_decide
    (key ∈ [ "constructor"; "hasOwnProperty"; "isPrototypeOf";
             "propertyIsEnumerable"; "toLocaleString"; "toString";
             "valueOf"; "__proto__"; "__defineGetter__";
             "__defineSetter__"; "__lookupGetter__"; "__lookupSetter__" ]).

(** Truthiness of [solvedMap[key]] on the plain object [solvedMap]: an own
    flag decides, and without one the inherited members are found. *)
Definition truthyAt (solvedMap : gmap string bool) (key : string) : bool :=
  match solvedMap !! key with
  | Some flag => flag
  | None => inherited key
  end.

Definition allLevelSolved (ids : list string)
    (solvedMap : gmap string bool) : bool :=
  (0 <? Z.of_nat (length ids))
  && forallb (fun i => truthyAt solvedMap i) ids.

(** The [disabled] attributes of the Previous and Next buttons. *)
Definition prevDisabled (s : NavState) : bool := negb (truthy (prevId s)).

Definition nextDisabled (questionId : string) (s : NavState)
    (solvedMap : gmap string bool) : bool :=
  negb (truthy (nextId s))
  || (isLastInLevel questionId (levelIds s)
      && negb (allLevelSolved (levelIds s) solvedMap)).

(** A problem bank as the component expects it: ids are unique and the
    part of an id before its first dash is the level of the problem. *)
Definition wellFormed (allQuestions : list Question) : Prop :=
  NoDup (List.map id allQuestions)
  /\ Forall (fun q => levelOf (id q) = level q) allQuestions.

End Nav.

(** ** A small problem bank, used to exercise the navigation statements *)

Module Bank.

Definition problem (i l f : string) : Question :=
  {| id := i; level := l; input_format := f |}.

Definition all : list Question :=
  [ problem "easy-100" "easy" "single_integer";
    problem "easy-101" "easy" "space_separated_integers";
    problem "medium-200" "medium" "multiline_integers";
    problem "hard-300" "hard" "single_string" ].

Definition env (qid : string) (ts : list TestCase) : Env :=
  {| questionId := qid; tests := ts; allQuestions := all;
     user := Scenario.alice; now := 1700000000000;
     nowISO := "2023-11-14T22:13:20.000Z"; storeFault := None |}.

End Bank.

(** ** The input hook of the older variant (its lines 164-185 and 235-256) *)

Module LegacyReader.
Import Reader.

(** [s.includes(c)] for one code unit. *)
Definition includes (c : ascii) (s : string) : bool :=
  anyChar (Ascii.eqb c) s.

(** [isNaN(parseInt(s))]: after leading white space and an optional sign,
    [parseInt] needs one digit, of base 16 behind a [0x] prefix and of
    base 10 otherwise. *)
Definition parseIntIsNaN (s : string) : bool :=
  let t := JS.trimStart s in
  let t :=
    match t with
    | String "-" r => r
    | String "+" r => r
    | _ => t
    end in
  match t with
  | String "0" (String "x" r) | String "0" (String "X" r) =>
      match r with
      | String c _ => negb (bool_decide (is_Some (JS.digitVal 16 c)))
      | EmptyString => true
      end
  | String c _ => negb (bool_decide (is_Some (JS.digitVal 10 c)))
  | EmptyString => true
  end.

Definition exhausted : string := "No more input lines available".

(** The locals the closure captures and reassigns. *)
Record state := { inputLines : list string; inputIndex : nat }.

Definition make (input : string) : state :=
  {| inputLines :=
       if includes (ascii_of_nat 10) input
       then Nav.splitOn (ascii_of_nat 10) input
       else Nav.splitOn " " input;
     inputIndex := 0 |}.

(** One call of the hook. *)
Definition inputProcessor (r : state) : readResult * state :=
  if (inputIndex r <? length (inputLines r))%nat then
    let currentInput := default EmptyString (inputLines r !! inputIndex r) in
    if includes " " currentInput
       && negb (parseIntIsNaN
                  (hd EmptyString (Nav.splitOn " " currentInput)))
    then
      let fields := Nav.splitOn " " currentInput in
      (at_index fields 0, {| inputLines := fields; inputIndex := 1 |})
    else
      (Token currentInput,
       {| inputLines := inputLines r; inputIndex := S (inputIndex r) |})
  else (Throws exhausted, r).

Fixpoint reads (n : nat) (r : state) : list readResult :=
  match n with
  | O => []
  | S k => let '(v, r') := inputProcessor r in v :: reads k r'
  end.

(** The first [n] reads of a hook that hands out [stream] and then
    throws for ever. *)
Definition handsOut (stream : list readResult) (n : nat) : list readResult :=
  take n stream ++ replicate (n - length stream) (Throws exhausted).

End LegacyReader.

(** ** [handleSubmit] of the older variant (its lines 219-308) *)

Module LegacySubmit.
Section WithInterpreter.
Import Interp.

Variable G : Type.
Variable python : string -> G -> prog G.

(** What [`${err}`] gives for an error of the interpreter whose message
    is empty: the name of its error class, declared by the interpreter. *)
Variable errorName : string.

(** A run of the user's code against the hook of the older variant. *)
Fixpoint exec (p : prog G) (r : LegacyReader.state) : string * settle * G :=
  match p with
  | Halt printed how g => (printed, how, g)
  | CallInput k =>
      let '(v, r') := LegacyReader.inputProcessor r in exec (k v) r'
  end.

(** The body of the inner [try]/[catch]: the text shown as the output of
    the test, whether it passed, and the interpreter's globals after it.
    [printed] is what the replaced [print] gathered. *)
Definition runTest (code : string) (t : TestCase) (g : G)
  : string * bool * G :=
  let '(printed, how, g') :=
    exec (python code g) (LegacyReader.make (input t)) in
  match how with
  | Completes => (JS.trim printed, Legacy.passed (output t) printed, g')
  | Raises msg => ("⚠️ " +:+ orElse msg errorName, false, g')
  | Outlives => ("⚠️ " +:+ timeLimitMsg, false, g')
  end.

(** The block pushed for a public test. *)
Definition block (t : TestCase) (actualOutput : string) (passed : bool)
  : string :=
  "Input:" +:+ nl +:+ input t +:+ nl +:+
  "Expected Output:" +:+ nl +:+ output t +:+ nl +:+
  "Your Output:" +:+ nl +:+ actualOutput +:+ nl +:+
  (if passed then "✅" else "❌") +:+ nl.

(** What the loop carries: [allPassed], [lines], the interpreter's
    globals and the calls made. *)
Record carried := {
  c_allPassed : bool;
  c_lines : list string;
  c_globals : G;
  c_trace : list event
}.

Definition step (code : string) (t : TestCase) (c : carried) : carried :=
  let '(actualOutput, passed, g') := runTest code t (c_globals c) in
  {| c_allPassed := c_allPassed c && passed;
     c_lines :=
       if hidden t then c_lines c
       else (c_lines c ++ [block t actualOutput passed])%list;
     c_globals := g';
     c_trace := (c_trace c ++ [EvRun t])%list |}.

Fixpoint loop (code : string) (ts : list TestCase) (c : carried) : carried :=
  match ts with
  | [] => c
  | t :: rest => loop code rest (step code t c)
  end.

Definition handleSubmit (e : Env) (w : World G) : World G :=
  match st_pyodide w with
  | None => w
  | Some g =>
      if st_loading w then w
      else
        let c :=
          loop (st_code w) (tests e)
            {| c_allPassed := true; c_lines := []; c_globals := g;
               c_trace := trace w |} in
        let ran (out : string) (newdb : gmap string UserDoc)
                (tr : list event) : World G :=
          {| st_code := st_code w; st_output := out;
             st_pyodide := Some (c_globals c); st_loading := st_loading w;
             st_solvedMap := st_solvedMap w; db := newdb; trace := tr |} in
        match (if c_allPassed c then signedIn e else None) with
        | Some u =>
            let tr :=
              (c_trace c ++ [EvSetDoc u (questionId e) (now e)])%list in
            match storeFault e with
            | Some msg => ran (errorReport msg) (db w) tr
            | None =>
                ran (join (c_lines c ++ [EmptyString; successBanner]))
                  (<[u := mergeSolved (questionId e) (nowISO e) (now e)
                            (default emptyDoc (db w !! u))]> (db w))
                  tr
            end
        | None => ran (join (c_lines c)) (db w) (c_trace c)
        end
  end.

(** The tests of a suite with the output shown for each and its verdict,
    run in order from globals [g]. *)
Fixpoint outcomes (code : string) (ts : list TestCase) (g : G)
  : list (TestCase * string * bool) :=
  match ts with
  | [] => []
  | t :: rest =>
      let '(actualOutput, passed, g') := runTest code t g in
      (t, actualOutput, passed) :: outcomes code rest g'
  end.

End WithInterpreter.

(** The blocks of the public tests among [os], in order. *)
Definition publicBlocks (os : list (TestCase * string * bool)) : list string :=
  List.flat_map
    (fun o => let '(t, actualOutput, passed) := o in
              if hidden t then [] else [block t actualOutput passed]) os.

Definition allPass (os : list (TestCase * string * bool)) : bool :=
  forallb (fun o => snd o) os.

End LegacySubmit.

(** ** Runs that settle *)




(** ** A program that keeps a hidden input *)

Module Leak.
Import Interp Reader.

Definition code : string :=
  "seen = globals().setdefault('seen', input()); print(seen)".

(** The program [code]: on every run it reads its input, keeps in a
    global of the interpreter the first value it ever read, and prints
    that global.  The globals are that value, once there is one. *)
Definition python (_ : string) (seen : option string)
  : prog (option string) :=
  CallInput (fun v =>
    match v with
    | Token s =>
        let kept := default s seen in
        Halt (kept +:+ nl) Completes (Some kept)
    | Undefined => Halt ("None" +:+ nl) Completes seen
    | Throws msg => Halt EmptyString (Raises msg) seen
    end).

Definition world : World (option string) :=
  {| st_code := code; st_output := EmptyString; st_pyodide := Some None;
     st_loading := false; st_solvedMap := ∅; db := ∅; trace := [] |}.

(** A suite of one hidden test, which echoing the input passes, and one
    public test. *)
Definition suite (secret : string) : list TestCase :=
  [ Scenario.test secret secret true; Scenario.test "1" "2" false ].

Definition report (secret : string) : string :=
  st_output
    (handleSubmit python (Scenario.env "easy-100" (suite secret) Scenario.alice)
       world).

End Leak.

(** "[hay] contains [needle]" *)
Definition occursIn (needle hay : string) : Prop :=
  exists before after, hay = before +:+ needle +:+ after.

(** ** Facts about the built-ins *)

Section NumberFacts.
Variables p em : Z.

Lemma abs_round_aux s m e l :
  SFabs (binary_round_aux p em s m e l) = binary_round_aux p em false m e l.
Proof.
  unfold binary_round_aux.
  destruct (shr_fexp p em m e l) as [mrs e1].
  destruct (shr_fexp p em _ e1 loc_Exact) as [mrs2 e2].
  destruct (shr_m mrs2); simpl; try reflexivity.
  destruct (Z.leb e2 (Z.sub em p)); reflexivity.
Qed.

Lemma abs_round s m e :
  SFabs (binary_round p em s m e) = binary_round p em false m e.
Proof.
  unfold binary_round.
  destruct (shl_align m e _) as [mz ez]. apply abs_round_aux.
Qed.

Lemma abs_normalize_opp m e z :
  SFabs (binary_normalize p em (Z.opp m) e z)
  = SFabs (binary_normalize p em m e z).
Proof.
  destruct m; simpl; try reflexivity; now rewrite !abs_round.
Qed.

Lemma abs_SFsub_comm x y :
  SFabs (SFsub p em x y) = SFabs (SFsub p em y x).
Proof.
  destruct x as [sx|sx| |sx mx ex], y as [sy|sy| |sy my ey];
    try reflexivity;
    try (destruct sx, sy; reflexivity).
  unfold SFsub. rewrite (Z.min_comm ey ex).
  set (ez := Z.min ex ey).
  set (a := cond_Zopp sx _). set (b := cond_Zopp sy _).
  replace (Z.sub b a) with (Z.opp (Z.sub a b)) by lia.
  now rewrite abs_normalize_opp.
Qed.

Lemma abs_SFsub_zero s a :
  a <> S754_nan -> SFabs (SFsub p em (S754_zero s) a) = SFabs a.
Proof.
  destruct a as [sa|sa| |sa ma ea]; intros Ha; try congruence;
    try reflexivity.
  destruct s, sa; reflexivity.
Qed.
End NumberFacts.

Lemma isNaN_false x : JS.isNaN x = false <-> x <> S754_nan.
Proof. destruct x; simpl; split; congruence. Qed.

Lemma cls_s_n_eq c : JS.cls_s_n c = JS.cls_s c.
Proof.
  unfold JS.cls_s_n, JS.cls_s.
  destruct (JS.isLF c) eqn:E; [|now rewrite orb_false_r].
  rewrite orb_true_r. unfold JS.isLF in E. apply Nat.eqb_eq in E.
  unfold JS.isWhiteSpace. now rewrite E.
Qed.

Lemma splitRuns_ext (f g : ascii -> bool) :
  (forall c, f c = g c) ->
  forall s b, JS.splitRuns f b s = JS.splitRuns g b s.
Proof.
  intros Hfg s. induction s as [|c r IH]; intros b; simpl; [reflexivity|].
  rewrite Hfg. destruct (g c).
  - destruct b; now rewrite IH.
  - now rewrite IH.
Qed.

(** ** Facts about the readers *)

Lemma reads_sequential_operator xs : forall n i,
  Reader.reads n (Reader.SpaceSeparated xs i)
  = Reader.reads n (Reader.WithOperator xs i).
Proof.
  induction n as [|n IH]; intros i; simpl; [reflexivity|].
  destruct (Reader.next xs i) as [v j]. now rewrite IH.
Qed.

Lemma reads_sequential_fallback xs : forall n i,
  Reader.reads n (Reader.SpaceSeparated xs i)
  = Reader.reads n (Reader.Fallback xs i).
Proof.
  induction n as [|n IH]; intros i; simpl; [reflexivity|].
  destruct (Reader.next xs i) as [v j]. now rewrite IH.
Qed.

Lemma make_fallback fmt inp :
  fmt <> "single_integer" -> fmt <> "single_string" ->
  fmt <> "space_separated_integers" -> fmt <> "multiline_integers" ->
  fmt <> "space_separated_with_operator" ->
  Reader.make fmt inp
  = Reader.Fallback (JS.filterBoolean (JS.splitRuns JS.cls_s_n false inp)) 0.
Proof.
  intros H1 H2 H3 H4 H5. unfold Reader.make.
  apply String.eqb_neq in H1, H2, H3, H4, H5.
  now rewrite H1, H2, H3, H4, H5.
Qed.

Lemma readAt_single_later n : forall s,
  Reader.readAt (S n) (Reader.Single s) = Reader.Token EmptyString.
Proof.
  induction n as [|n IH]; intros s; [reflexivity|].
  change (Reader.readAt (S (S n)) (Reader.Single s))
    with (Reader.readAt (S n) (Reader.Single EmptyString)).
  apply IH.
Qed.

(** ** Input Virtualizer *)

(** C5. Under [multiline_integers] the input "3\n1 2 3" is read as "3",
    "1", "2", "3", and the fifth read fails with the exhaustion error.
    The second line is not tokenized until the first line is drained: after
    the first read the current line holds only "3", after the second it
    holds "1", "2", "3". *)
Theorem multiline_reads_example :
  let r0 := Reader.make "multiline_integers" ("3" +:+ nl +:+ "1 2 3") in
  let r1 := snd (Reader.inputProcessor r0) in
  let r2 := snd (Reader.inputProcessor r1) in
  r0 = Reader.Multiline ["3"; "1 2 3"] 0 [] 0
  /\ r1 = Reader.Multiline ["3"; "1 2 3"] 1 ["3"] 1
  /\ r2 = Reader.Multiline ["3"; "1 2 3"] 2 ["1"; "2"; "3"] 1
  /\ Reader.reads 5 r0
     = [Reader.Token "3"; Reader.Token "1"; Reader.Token "2";
        Reader.Token "3"; Reader.Throws "No more input values available"].
Proof. vm_compute. repeat split. Qed.

(** C6. Under [single_integer] and [single_string] the first read returns
    the whole input unchanged and every later read returns the empty
    string; in particular no read throws. *)
Theorem single_reads :
  forall (inp : string) (n : nat),
    Reader.readAt n (Reader.make "single_integer" inp)
    = Reader.Token (match n with O => inp | S _ => EmptyString end)
    /\ Reader.readAt n (Reader.make "single_string" inp)
       = Reader.Token (match n with O => inp | S _ => EmptyString end).
Proof.
  intros inp n.
  change (Reader.make "single_integer" inp) with (Reader.Single inp).
  change (Reader.make "single_string" inp) with (Reader.Single inp).
  destruct n as [|n]; [split; reflexivity|].
  split; apply readAt_single_later.
Qed.

(** C7. For every input, [space_separated_integers],
    [space_separated_with_operator] and any tag that falls through to the
    default branch give the same results read after read, the exhaustion
    error included. *)
Theorem whitespace_formats_agree :
  forall (fmt inp : string) (n : nat),
    fmt <> "single_integer" -> fmt <> "single_string" ->
    fmt <> "space_separated_integers" -> fmt <> "multiline_integers" ->
    fmt <> "space_separated_with_operator" ->
    Reader.reads n (Reader.make "space_separated_integers" inp)
    = Reader.reads n (Reader.make "space_separated_with_operator" inp)
    /\ Reader.reads n (Reader.make "space_separated_integers" inp)
       = Reader.reads n (Reader.make fmt inp).
Proof.
  intros fmt inp n H1 H2 H3 H4 H5.
  rewrite (make_fallback fmt inp H1 H2 H3 H4 H5).
  change (Reader.make "space_separated_integers" inp)
    with (Reader.SpaceSeparated
            (JS.filterBoolean (JS.splitRuns JS.cls_s false inp)) 0).
  change (Reader.make "space_separated_with_operator" inp)
    with (Reader.WithOperator
            (JS.filterBoolean (JS.splitRuns JS.cls_s false inp)) 0).
  split; [apply reads_sequential_operator|].
  rewrite (splitRuns_ext JS.cls_s_n JS.cls_s cls_s_n_eq).
  apply reads_sequential_fallback.
Qed.

Lemma whitespace_formats_agree_witness :
  Reader.reads 4 (Reader.make "space_separated_integers" " 5 +  3 ")
  = Reader.reads 4 (Reader.make "space_separated_with_operator" " 5 +  3 ")
  /\ Reader.reads 4 (Reader.make "space_separated_integers" " 5 +  3 ")
     = Reader.reads 4 (Reader.make "csv" " 5 +  3 ").
Proof.
  apply (whitespace_formats_agree "csv" " 5 +  3 " 4); discriminate.
Defined.

(** ** Grading Engine *)

(** C1. The comparison block agrees with the rule as the specification
    words it, for every pair of outputs; on the three quoted pairs it
    passes, passes and fails; and both handlers decide by it: [handleRun]
    closes its report with the pass banner exactly when the rule passes
    the output of the first test, and an iteration of [handleSubmit]
    leaves the aggregates untouched exactly when the rule passes the
    output of its test. *)
Theorem grading_rule :
  (forall actual expected : string,
      Grading.passed expected actual = true <-> Spec.grade actual expected)
  /\ Grading.passed "3.14159" "3.14" = true
  /\ Grading.passed "True" "true" = true
  /\ Grading.passed "5" "5.02" = false
  /\ (forall (G : Type) (python : string -> G -> Interp.prog G)
             (e : Env) (w w' : World G) q t0 rest raw,
         ready w = true -> findQuestion e = Some q -> tests e = t0 :: rest ->
         runCode python t0 q (setOutput EmptyString w) = (inl raw, w') ->
         exists status,
           st_output (handleRun python e w)
           = "Input:" +:+ nl +:+ input t0 +:+ nl +:+ nl +:+
             "Expected Output:" +:+ nl +:+ output t0 +:+ nl +:+ nl +:+
             "Your Output:" +:+ nl +:+ raw +:+ nl +:+ nl +:+ status
           /\ (status = runPassBanner \/ status = runFailBanner)
           /\ (status = runPassBanner <-> Spec.grade raw (output t0)))
  /\ (forall (G : Type) (python : string -> G -> Interp.prog G)
             (w w' : World G) q t v out,
         runCode python t q w = (inl out, w') ->
         (Spec.grade out (output t) ->
          fst (submitStep python q t (v, w)) = v)
         /\ (~ Spec.grade out (output t) ->
             fst (submitStep python q t (v, w))
             = recordFailure t (failDetail t out) v)).
Proof.
  assert (Hrule : forall actual expected : string,
             Grading.passed expected actual = true
             <-> Spec.grade actual expected).
  { intros actual expected.
    unfold Grading.passed, Spec.grade, Grading.tryParseFloat,
      Grading.normalize, Spec.parses, Spec.close.
    set (a := JS.toLowerCase (JS.trim actual)).
    set (e := JS.toLowerCase (JS.trim expected)).
    destruct (JS.isNaN (JS.Number e)) eqn:He;
      [|destruct (JS.isNaN (JS.Number a)) eqn:Ha].
    - rewrite String.eqb_eq. split.
      + intros Hae. right. split; [|exact Hae].
        intros (x & y & _ & [Hy Hy']). congruence.
      + intros [(x & y & _ & [Hy Hy'] & _)|[_ Hae]]; [congruence|exact Hae].
    - rewrite String.eqb_eq. split.
      + intros Hae. right. split; [|exact Hae].
        intros (x & y & [Hx Hx'] & _). congruence.
      + intros [(x & y & [Hx Hx'] & _)|[_ Hae]]; [congruence|exact Hae].
    - unfold JS.abs, JS.sub.
      rewrite (abs_SFsub_comm JS.prec JS.emax (JS.Number e) (JS.Number a)).
      split.
      + intros Hlt. left. exists (JS.Number a), (JS.Number e). tauto.
      + intros [(x & y & [Hx _] & [Hy _] & Hc)|[Hno _]].
        * now subst x y.
        * exfalso. apply Hno. exists (JS.Number a), (JS.Number e). tauto. }
  split; [exact Hrule|].
  split; [vm_compute; reflexivity|].
  split; [vm_compute; reflexivity|].
  split; [vm_compute; reflexivity|].
  split.
  - intros G python e w w' q t0 rest raw Hr Hq Ht Hrun.
    unfold handleRun. rewrite Hr, Hq, Ht. cbn [negb]. rewrite Hrun.
    cbn [setOutput st_output].
    destruct (Grading.passed (output t0) raw) eqn:Hp; eexists;
      (split; [reflexivity|]).
    + split; [now left|]. split; [intros _; now apply Hrule|reflexivity].
    + split; [now right|]. split; [discriminate|].
      intros Hg. apply Hrule in Hg. congruence.
  - intros G python w w' q t v out Hrun. unfold submitStep. rewrite Hrun.
    destruct (Grading.passed (output t) out) eqn:Hp; split; intros Hg;
      try reflexivity.
    + exfalso. apply Hg. now apply Hrule.
    + apply Hrule in Hg. congruence.
Qed.

Lemma grading_rule_witness :
  Spec.grade "3.14" "3.14159"
  /\ (exists status,
        st_output
          (handleRun Scenario.python
             (Scenario.env "easy-100" [Scenario.test "3.14" "3.14159" false]
                Scenario.alice)
             (Scenario.world "print(input())"))
        = "Input:" +:+ nl +:+ "3.14" +:+ nl +:+ nl +:+
          "Expected Output:" +:+ nl +:+ "3.14159" +:+ nl +:+ nl +:+
          "Your Output:" +:+ nl +:+ "3.14" +:+ nl +:+ nl +:+ status
        /\ status = runPassBanner).
Proof.
  destruct grading_rule as (Hrule & H1 & _ & _ & Hrun & _).
  split; [apply Hrule; exact H1|].
  destruct (Hrun unit Scenario.python
              (Scenario.env "easy-100" [Scenario.test "3.14" "3.14159" false]
                 Scenario.alice)
              (Scenario.world "print(input())")
              (afterRun (Scenario.test "3.14" "3.14159" false) tt
                 (setOutput EmptyString (Scenario.world "print(input())")))
              Scenario.question (Scenario.test "3.14" "3.14159" false) []
              "3.14" eq_refl eq_refl eq_refl eq_refl)
    as (status & Hout & _ & Hiff).
  exists status. split; [exact Hout|]. apply Hiff. apply Hrule. exact H1.
Defined.

(** C9, as amended.  In [CodeRunner.tsx] the verdict depends on the two
    outputs only through their trimmed, lower-cased forms.  In the older
    variant it depends on the actual output through its trimmed,
    lower-cased form and on the expected output through its lower-cased
    form: the expected output is not trimmed there. *)
Theorem comparison_normalizes :
  forall a a' e e' l l' : string,
    JS.toLowerCase (JS.trim a) = JS.toLowerCase (JS.trim a') ->
    JS.toLowerCase (JS.trim e) = JS.toLowerCase (JS.trim e') ->
    JS.toLowerCase l = JS.toLowerCase l' ->
    Grading.passed e a = Grading.passed e' a'
    /\ Legacy.passed l a = Legacy.passed l' a'.
Proof.
  intros a a' e e' l l' Ha He Hl. split.
  - unfold Grading.passed, Grading.normalize. now rewrite Ha, He.
  - unfold Legacy.passed. now rewrite Ha, Hl.
Qed.

Lemma comparison_normalizes_witness :
  Grading.passed " TRUE " ("true" +:+ nl) = Grading.passed "True" " True"
  /\ Legacy.passed "TRUE" ("true" +:+ nl) = Legacy.passed "True" " True".
Proof.
  apply (comparison_normalizes ("true" +:+ nl) " True" " TRUE " "True"
           "TRUE" "True"); reflexivity.
Defined.

(** C9, as stated, fails on the older variant: two expected outputs with
    the same trimmed, lower-cased form are graded differently against the
    same actual output. *)
Lemma legacy_keeps_expected_whitespace :
  ~ (forall a e e' : string,
        JS.toLowerCase (JS.trim e) = JS.toLowerCase (JS.trim e') ->
        Legacy.passed e a = Legacy.passed e' a).
Proof.
  intros H. specialize (H "5" "5 " "5" eq_refl). vm_compute in H.
  discriminate.
Qed.

(** ** Facts about the orchestration *)

Section OrchestratorFacts.
Context {G : Type}.
Variable python : string -> G -> Interp.prog G.

Lemma runCode_cases t q (w : World G) :
  (st_pyodide w = None /\ runCode python t q w = (inr nullInterpreterMsg, w))
  \/ (exists g g' r,
        st_pyodide w = Some g
        /\ runCode python t q w = (r, afterRun t g' w)).
Proof.
  unfold runCode. destruct (st_pyodide w) as [g|]; [right|left; tauto].
  destruct (Interp.exec _ _) as [[printed how] g'].
  exists g, g'. destruct how; eauto.
Qed.

Lemma runCode_setOutput s t q (w : World G) :
  runCode python t q (setOutput s w)
  = (fst (runCode python t q w), setOutput s (snd (runCode python t q w))).
Proof.
  unfold runCode. simpl. destruct (st_pyodide w) as [g|]; [|reflexivity].
  destruct (Interp.exec _ _) as [[printed how] g']. destruct how; reflexivity.
Qed.

Lemma results_setOutput s q ts : forall w : World G,
  results python q ts (setOutput s w) = results python q ts w.
Proof.
  induction ts as [|t rest IH]; intros w; simpl; [reflexivity|].
  rewrite runCode_setOutput.
  destruct (runCode python t q w) as [r w']. simpl. now rewrite IH.
Qed.

Lemma worldAfter_trace q ts : forall (w : World G) g,
  st_pyodide w = Some g ->
  trace (worldAfter python q ts w) = (trace w ++ List.map EvRun ts)%list
  /\ is_Some (st_pyodide (worldAfter python q ts w)).
Proof.
  induction ts as [|t rest IH]; intros w g Hg; simpl.
  - rewrite app_nil_r. split; [reflexivity|]. rewrite Hg. eauto.
  - destruct (runCode_cases t q w) as [[Hn _]|(g0 & g' & r & _ & Hr)];
      [congruence|].
    rewrite Hr. simpl.
    destruct (IH (afterRun t g' w) g' eq_refl) as [Htr Hpy].
    split; [|exact Hpy]. rewrite Htr. simpl. now rewrite <- app_assoc.
Qed.

Lemma worldAfter_frame q ts : forall w : World G,
  st_output (worldAfter python q ts w) = st_output w
  /\ st_solvedMap (worldAfter python q ts w) = st_solvedMap w
  /\ db (worldAfter python q ts w) = db w
  /\ st_loading (worldAfter python q ts w) = st_loading w
  /\ st_code (worldAfter python q ts w) = st_code w.
Proof.
  induction ts as [|t rest IH]; intros w; simpl; [tauto|].
  destruct (runCode_cases t q w) as [[_ Hr]|(g0 & g' & r & _ & Hr)];
    rewrite Hr; simpl; [apply IH|].
  destruct (IH (afterRun t g' w)) as (-> & -> & -> & -> & ->).
  repeat split.
Qed.

Lemma submitStep_summary q t v (w : World G) :
  submitStep python q t (v, w)
  = (combine v (summary [(t, fst (runCode python t q w))]),
     snd (runCode python t q w)).
Proof.
  unfold submitStep, summary, combine, shownDetail, hiddenFailure, failed,
    recordFailure.
  destruct (runCode python t q w) as [[actualOutput|msg] w']; simpl.
  - destruct (Grading.passed (output t) actualOutput); simpl.
    + destruct v as [a l h]; simpl.
      now rewrite andb_true_r, app_nil_r, andb_false_r, orb_false_r.
    + destruct (hidden t), v as [a l h]; simpl;
        now rewrite ?andb_false_r, ?app_nil_r, ?orb_true_r, ?orb_false_r.
  - destruct (hidden t), v as [a l h]; simpl;
      now rewrite ?andb_false_r, ?app_nil_r, ?orb_true_r, ?orb_false_r.
Qed.

Lemma combine_assoc v a b : combine (combine v a) b = combine v (combine a b).
Proof.
  unfold combine; simpl.
  now rewrite andb_assoc, orb_assoc, app_assoc.
Qed.

Lemma summary_cons x rs : summary (x :: rs) = combine (summary [x]) (summary rs).
Proof.
  unfold summary, combine; simpl.
  now rewrite andb_true_r, orb_false_r, !app_nil_r.
Qed.

Lemma combine_initial s : combine initialVerdict s = s.
Proof. destruct s; reflexivity. Qed.

Lemma submitLoop_summary q ts : forall v (w : World G),
  submitLoop python q ts (v, w)
  = (combine v (summary (results python q ts w)), worldAfter python q ts w).
Proof.
  induction ts as [|t rest IH]; intros v w.
  - simpl. f_equal. destruct v as [a l h]; unfold combine, summary; simpl.
    now rewrite andb_true_r, orb_false_r, app_nil_r.
  - cbn [submitLoop results worldAfter].
    rewrite submitStep_summary, IH.
    destruct (runCode python t q w) as [r w']; cbn [fst snd].
    now rewrite combine_assoc, <- summary_cons.
Qed.

Lemma handleSubmit_found e q (w : World G) :
  ready w = true -> findQuestion e = Some q ->
  handleSubmit python e w
  = conclude e (summary (results python q (tests e) w))
      (worldAfter python q (tests e) (setOutput EmptyString w)).
Proof.
  intros Hr Hq. unfold handleSubmit. rewrite Hr, Hq. simpl.
  fold initialVerdict.
  rewrite submitLoop_summary, combine_initial, results_setOutput.
  reflexivity.
Qed.

Lemma handleSubmit_missing e (w : World G) :
  ready w = true -> findQuestion e = None ->
  handleSubmit python e w
  = setOutput (errorReport notFoundMsg) (setOutput EmptyString w).
Proof. intros Hr Hq. unfold handleSubmit. now rewrite Hr, Hq. Qed.

Lemma ready_pyodide (w : World G) :
  ready w = true -> exists g, st_pyodide w = Some g.
Proof.
  unfold ready. intros H. apply andb_true_iff in H as [_ H].
  apply bool_decide_eq_true in H. destruct H as [g Hg]. eauto.
Qed.

(** The report depends on the aggregates and on the collaborators, not
    on the world it is written into. *)
Lemma conclude_output e v (w1 w2 : World G) :
  st_output (conclude e v w1) = st_output (conclude e v w2).
Proof.
  unfold conclude. destruct (anyHiddenFailed v); [reflexivity|].
  destruct (if allPassed v then signedIn e else None); [|reflexivity].
  destruct (storeFault e); reflexivity.
Qed.

End OrchestratorFacts.

Lemma sameView_summary (rs1 rs2 : list outcome) :
  Forall2 sameView rs1 rs2 -> summary rs1 = summary rs2.
Proof.
  induction 1 as [|x y xs ys [Hh Hv] _ IH]; [reflexivity|].
  rewrite (summary_cons x xs), (summary_cons y ys), IH. f_equal.
  unfold summary, shownDetail, hiddenFailure; simpl.
  destruct (hidden x.1) eqn:Hx; rewrite <- Hh.
  - now rewrite Hv, !andb_false_r.
  - now subst y.
Qed.

Lemma runEvents_app a b : runEvents (a ++ b) = (runEvents a ++ runEvents b)%list.
Proof. apply flat_map_app. Qed.


Lemma setDocEvents_app a b :
  setDocEvents (a ++ b) = (setDocEvents a ++ setDocEvents b)%list.
Proof. apply List.filter_app. Qed.

Lemma setDocEvents_runs ts : setDocEvents (List.map EvRun ts) = [].
Proof. induction ts as [|t r IH]; simpl; [reflexivity|]. exact IH. Qed.


Lemma all_passed_summary rs :
  forallb (fun x => negb (failed x)) rs = true ->
  summary rs = initialVerdict.
Proof.
  induction rs as [|x rs IH]; [reflexivity|]. simpl.
  intros H. apply andb_true_iff in H as [Hx Hrs].
  rewrite summary_cons, (IH Hrs).
  apply negb_true_iff in Hx.
  unfold summary, shownDetail, hiddenFailure; simpl.
  now rewrite Hx, andb_false_r.
Qed.

Lemma conclude_not_all_passed {G} e v (w : World G) :
  allPassed v = false ->
  trace (conclude e v w) = trace w /\ db (conclude e v w) = db w
  /\ st_solvedMap (conclude e v w) = st_solvedMap w.
Proof.
  intros Hv. unfold conclude. rewrite Hv.
  destruct (anyHiddenFailed v); repeat split.
Qed.

(** ** Execution Supervisor *)

(** C8. When the awaited run raises, [runCode] rejects; the message is the
    captured output if that is non-empty and the raised error's message
    otherwise.  The captured text is available on this path: it is the
    [printed] of the run that raised. *)
Theorem raised_error_message :
  forall (G : Type) (python : string -> G -> Interp.prog G)
         (t : TestCase) (q : Question) (w : World G)
         (g g' : G) (printed msg : string),
    st_pyodide w = Some g ->
    Interp.exec (python (st_code w) g)
      (Reader.make (input_format q) (input t))
    = (printed, Interp.Raises msg, g') ->
    fst (runCode python t q w)
    = inr (if JS.isEmpty printed then msg else printed)
    /\ failed (t, fst (runCode python t q w)) = true.
Proof.
  intros G python t q w g g' printed msg Hg Hex.
  unfold runCode. rewrite Hg, Hex. split; reflexivity.
Qed.

Lemma raised_error_message_witness :
  fst (runCode Scenario.python (Scenario.test "4" "4" false) Scenario.question
         (Scenario.world "print('partial'); raise ValueError('boom')"))
  = inr ("partial" +:+ nl)
  /\ failed (Scenario.test "4" "4" false,
             fst (runCode Scenario.python (Scenario.test "4" "4" false)
                    Scenario.question
                    (Scenario.world
                       "print('partial'); raise ValueError('boom')")))
     = true.
Proof.
  apply (raised_error_message unit Scenario.python
           (Scenario.test "4" "4" false) Scenario.question
           (Scenario.world "print('partial'); raise ValueError('boom')")
           tt tt ("partial" +:+ nl) "ValueError: boom"); reflexivity.
Defined.

(** C10. The parser reads the empty string as the number 0, and a run
    that completes with nothing but white space captured reports
    "[no output]".  So against an expected output that trims to the empty
    string, an actual output passes exactly when it parses as a number of
    absolute value below 0.01, and the report of a silent program does not
    pass. *)
Theorem empty_expected_output :
  forall (G : Type) (python : string -> G -> Interp.prog G)
         (t : TestCase) (q : Question) (w : World G)
         (g g' : G) (printed actual : string),
    st_pyodide w = Some g ->
    Interp.exec (python (st_code w) g)
      (Reader.make (input_format q) (input t))
    = (printed, Interp.Completes, g') ->
    JS.trim printed = EmptyString ->
    JS.trim (output t) = EmptyString ->
    Grading.tryParseFloat EmptyString = Some (S754_zero false)
    /\ fst (runCode python t q w) = inl "[no output]"
    /\ Grading.passed (output t) actual
       = match Grading.tryParseFloat (Grading.normalize actual) with
         | Some a => JS.ltb (JS.abs a) JS.lit_1e_2
         | None => false
         end
    /\ failed (t, fst (runCode python t q w)) = true.
Proof.
  intros G python t q w g g' printed actual Hg Hex Hp He.
  assert (Hgen : forall s, Grading.passed (output t) s
     = match Grading.tryParseFloat (Grading.normalize s) with
       | Some a => JS.ltb (JS.abs a) JS.lit_1e_2
       | None => false
       end).
  { intros s.
    assert (Hne : Grading.normalize (output t) = EmptyString)
      by (unfold Grading.normalize; now rewrite He).
    unfold Grading.passed. rewrite Hne.
    change (Grading.tryParseFloat EmptyString) with (Some (S754_zero false)).
    unfold Grading.tryParseFloat.
    destruct (JS.isNaN (JS.Number (Grading.normalize s))) eqn:Hn.
    - apply String.eqb_neq. intros Hs. rewrite Hs in Hn. discriminate.
    - unfold JS.abs, JS.sub. apply isNaN_false in Hn.
      now rewrite (abs_SFsub_zero JS.prec JS.emax false _ Hn). }
  assert (Hrun : fst (runCode python t q w) = inl "[no output]").
  { unfold runCode. now rewrite Hg, Hex, Hp. }
  repeat split; [exact Hrun|apply Hgen|].
  rewrite Hrun. unfold failed. cbn [fst snd]. now rewrite Hgen.
Qed.

Lemma empty_expected_output_witness :
  Grading.tryParseFloat EmptyString = Some (S754_zero false)
  /\ fst (runCode Scenario.python (Scenario.test "4" " " false)
            Scenario.question (Scenario.world "pass"))
     = inl "[no output]"
  /\ Grading.passed " " "0.009"
     = match Grading.tryParseFloat (Grading.normalize "0.009") with
       | Some a => JS.ltb (JS.abs a) JS.lit_1e_2
       | None => false
       end
  /\ failed (Scenario.test "4" " " false,
             fst (runCode Scenario.python (Scenario.test "4" " " false)
                    Scenario.question (Scenario.world "pass")))
     = true.
Proof.
  apply (empty_expected_output unit Scenario.python
           (Scenario.test "4" " " false) Scenario.question
           (Scenario.world "pass") tt tt EmptyString "0.009"); reflexivity.
Defined.

(** ** Test Orchestrator *)

(** C2, as amended.  [handleSubmit] itself puts nothing of a hidden test
    into the report: the report is decided by the public tests with their
    own outcomes, as the program produced them, and by whether some hidden
    test failed.  Take two submissions that start from the same displayed
    text and the same readiness, and whose suites look the same to someone
    who sees public tests and their outcomes in full but, of each hidden
    test, only whether it failed: their reports are equal.  And when some
    hidden test fails, the report is the generic message alone, whatever
    the public tests did.  What the program prints in a public test is
    shown as it is; the statement does not cover what a program carries
    there from a hidden test through the interpreter's globals. *)
Theorem hidden_tests_stay_hidden :
  forall (G : Type) (python : string -> G -> Interp.prog G)
         (e : Env) (ts1 ts2 : list TestCase) (w1 w2 : World G),
    ready w1 = ready w2 ->
    st_output w1 = st_output w2 ->
    (forall q, ready w1 = true -> findQuestion e = Some q ->
               Forall2 sameView (results python q ts1 w1)
                                (results python q ts2 w2)) ->
    st_output (handleSubmit python (withTests e ts1) w1)
    = st_output (handleSubmit python (withTests e ts2) w2)
    /\ (forall q, ready w1 = true -> findQuestion e = Some q ->
                  existsb hiddenFailure (results python q ts1 w1) = true ->
                  st_output (handleSubmit python (withTests e ts1) w1)
                  = "Some hidden test cases failed. Check for edge cases!").
Proof.
  intros G python e ts1 ts2 w1 w2 Hready Hshown Hview.
  split.
  - destruct (ready w1) eqn:Hr1; symmetry in Hready.
    + destruct (findQuestion e) as [q|] eqn:Hq.
      * rewrite (handleSubmit_found python (withTests e ts1) q w1 Hr1 Hq).
        rewrite (handleSubmit_found python (withTests e ts2) q w2 Hready Hq).
        cbn [tests withTests].
        rewrite (sameView_summary _ _ (Hview q eq_refl eq_refl)).
        change (conclude (withTests e ts1)) with (conclude (G := G) e).
        change (conclude (withTests e ts2)) with (conclude (G := G) e).
        apply conclude_output.
      * rewrite (handleSubmit_missing python (withTests e ts1) w1 Hr1 Hq).
        rewrite (handleSubmit_missing python (withTests e ts2) w2 Hready Hq).
        reflexivity.
    + unfold handleSubmit. now rewrite Hr1, Hready.
  - intros q Hr1 Hq Hh.
    rewrite (handleSubmit_found python (withTests e ts1) q w1 Hr1 Hq).
    cbn [tests withTests]. unfold conclude, summary. cbn [anyHiddenFailed].
    now rewrite Hh.
Qed.

Lemma hidden_tests_stay_hidden_witness :
  let public := Scenario.test "1" "1" false in
  let wrong := Scenario.test "2" "3" false in
  st_output (handleSubmit Scenario.python
               (Scenario.env "easy-100"
                  [public; Scenario.test "7" "8" true; wrong] Scenario.alice)
               (Scenario.world "print(input())"))
  = st_output (handleSubmit Scenario.python
                 (Scenario.env "easy-100"
                    [public; Scenario.test "secret" "40" true; wrong]
                    Scenario.alice)
                 (Scenario.world "print(input())"))
  /\ st_output (handleSubmit Scenario.python
                  (Scenario.env "easy-100"
                     [public; Scenario.test "7" "8" true; wrong]
                     Scenario.alice)
                  (Scenario.world "print(input())"))
     = "Some hidden test cases failed. Check for edge cases!".
Proof.
  intros public wrong.
  destruct (hidden_tests_stay_hidden unit Scenario.python
              (Scenario.env "easy-100" [] Scenario.alice)
              [public; Scenario.test "7" "8" true; wrong]
              [public; Scenario.test "secret" "40" true; wrong]
              (Scenario.world "print(input())")
              (Scenario.world "print(input())")
              eq_refl eq_refl) as [Heq Hmsg].
  - intros q _ Hq. injection Hq as <-. repeat constructor.
  - split; [exact Heq|].
    apply (Hmsg Scenario.question); reflexivity.
Defined.

(** C2, as stated, fails: the interpreter's globals persist from one
    test of a suite to the next, so a program can keep the input of a
    hidden test and print it in a public test.  With the hidden test
    passed and the public test failed in both suites, the two reports
    differ, and the first contains the hidden input. *)
Lemma hidden_input_reaches_report :
  List.map failed
    (results Leak.python Scenario.question (Leak.suite "SECRET-A") Leak.world)
  = [false; true]
  /\ List.map failed
       (results Leak.python Scenario.question (Leak.suite "SECRET-B")
          Leak.world)
     = [false; true]
  /\ Leak.report "SECRET-A" <> Leak.report "SECRET-B"
  /\ occursIn "SECRET-A" (Leak.report "SECRET-A").
Proof.
  split; [vm_compute; reflexivity|]. split; [vm_compute; reflexivity|].
  split.
  - intros H. vm_compute in H. discriminate H.
  - exists ("Input:" +:+ nl +:+ "1" +:+ nl +:+ nl +:+
            "Expected Output:" +:+ nl +:+ "2" +:+ nl +:+ nl +:+
            "Your Output:" +:+ nl), nl.
    vm_compute. reflexivity.
Qed.






(** C4, as amended.  With a signed-in user (non-empty uid): when every
    test passes, exactly one write is issued to the progress store, for
    this user, keyed by the problem id and carrying the timestamp; when the
    store accepts it, the user's document is merged with the solved entry,
    the problem is marked solved in the component and the report ends with
    the success banner.  When some test fails, no write is issued and
    nothing is marked.  The write is idempotent: repeating it leaves the
    document as the first left it, and a later repetition with another
    timestamp leaves the solved flags as they were. *)
Theorem solved_upsert_when_signed_in :
  forall (G : Type) (python : string -> G -> Interp.prog G)
         (e : Env) (q : Question) (u : string) (w : World G),
    ready w = true ->
    findQuestion e = Some q ->
    signedIn e = Some u ->
    let rs := results python q (tests e) w in
    let w' := handleSubmit python e w in
    let upsert := mergeSolved (questionId e) (nowISO e) (now e) in
    (forallb (fun x => negb (failed x)) rs = true ->
       setDocEvents (trace w')
       = (setDocEvents (trace w) ++ [EvSetDoc u (questionId e) (now e)])%list
       /\ (storeFault e = None ->
           db w' = <[u := upsert (default emptyDoc (db w !! u))]> (db w)
           /\ st_solvedMap w' = <[questionId e := true]> (st_solvedMap w)
           /\ st_output w' = nl +:+ "🎉 All tests passed!"
           /\ endsWith (st_output w') "🎉 All tests passed!"))
    /\ (forallb (fun x => negb (failed x)) rs = false ->
        setDocEvents (trace w') = setDocEvents (trace w)
        /\ db w' = db w /\ st_solvedMap w' = st_solvedMap w)
    /\ (forall d, upsert (upsert d) = upsert d)
    /\ (forall d iso' ts',
           solved (mergeSolved (questionId e) iso' ts' (upsert d))
           = solved (upsert d)).
Proof.
  intros G python e q u w Hr Hq Hu rs w' upsert.
  destruct (ready_pyodide w Hr) as [g Hg].
  destruct (worldAfter_trace python q (tests e) (setOutput EmptyString w) g Hg)
    as [Htr _].
  destruct (worldAfter_frame python q (tests e) (setOutput EmptyString w))
    as (Hout & Hsm & Hdb & _ & _).
  cbn [setOutput st_solvedMap db] in Hsm, Hdb.
  subst w'. rewrite (handleSubmit_found python e q w Hr Hq). fold rs.
  split; [|split; [|split]].
  - intros Hall. rewrite (all_passed_summary rs Hall).
    unfold conclude. cbn [anyHiddenFailed allPassed lines initialVerdict].
    rewrite Hu. destruct (storeFault e) as [msg|] eqn:Hf.
    + split; [|discriminate].
      cbn [setOutput afterSetDoc trace].
      rewrite setDocEvents_app, Htr, setDocEvents_app, setDocEvents_runs.
      cbn [setOutput trace]. now rewrite app_nil_r.
    + split.
      * cbn [setOutput setSolvedMap afterSetDoc trace].
        rewrite setDocEvents_app, Htr, setDocEvents_app, setDocEvents_runs.
        cbn [setOutput trace]. now rewrite app_nil_r.
      * intros _. cbn [setOutput setSolvedMap afterSetDoc db st_solvedMap
                         st_output].
        rewrite Hdb, Hsm. repeat split. exists nl. reflexivity.
  - intros Hfail.
    destruct (conclude_not_all_passed e (summary rs)
                (worldAfter python q (tests e) (setOutput EmptyString w)))
      as (Ht & Hd & Hs); [exact Hfail|].
    rewrite Ht, Hd, Hs, Htr, Hdb, Hsm, setDocEvents_app, setDocEvents_runs.
    cbn [setOutput trace]. now rewrite app_nil_r.
  - intros d. unfold upsert, mergeSolved. cbn [solved lastSolved solvedAt].
    now rewrite !insert_insert_eq.
  - intros d iso' ts'. unfold upsert, mergeSolved. cbn [solved].
    now rewrite insert_insert_eq.
Qed.

Lemma solved_upsert_when_signed_in_witness :
  let e :=
    Scenario.env "easy-100"
      [Scenario.test "1" "1" false; Scenario.test "2.0" "2" true]
      Scenario.alice in
  let after := handleSubmit Scenario.python e (Scenario.world "print(input())") in
  setDocEvents (trace after) = [EvSetDoc "alice" "easy-100" 1700000000000]
  /\ solved <$> (db after !! "alice") = Some {["easy-100" := true]}
  /\ st_solvedMap after = {["easy-100" := true]}
  /\ endsWith (st_output after) "🎉 All tests passed!".
Proof.
  intros e after.
  destruct (solved_upsert_when_signed_in unit Scenario.python e
              Scenario.question "alice" (Scenario.world "print(input())")
              eq_refl eq_refl eq_refl) as (Hpass & _).
  destruct (Hpass eq_refl) as (Hev & Hok).
  destruct (Hok eq_refl) as (Hdb & Hsm & _ & Hend).
  split; [exact Hev|]. split; [|split; [exact Hsm|exact Hend]].
  fold after in Hdb. rewrite Hdb. now rewrite lookup_insert_eq.
Defined.

(** C4, as stated, fails without a signed-in user: every test passes, yet
    no write reaches the store and the report carries no banner. *)
Lemma no_upsert_without_user :
  let e := Scenario.env "easy-100" [Scenario.test "1" "1" false] None in
  let w := Scenario.world "print(input())" in
  forallb (fun x => negb (failed x))
    (results Scenario.python Scenario.question (tests e) w) = true
  /\ setDocEvents (trace (handleSubmit Scenario.python e w)) = []
  /\ db (handleSubmit Scenario.python e w) = db w
  /\ st_output (handleSubmit Scenario.python e w) = EmptyString
  /\ ~ endsWith (st_output (handleSubmit Scenario.python e w))
         "🎉 All tests passed!".
Proof.
  intros e w. repeat split.
  intros [before Hb]. destruct before; discriminate Hb.
Qed.

(** ** Further facts about splitting *)

Lemma splitRuns_nonempty cls b s : JS.splitRuns cls b s <> [].
Proof.
  revert b. induction s as [|c r IH]; intros b; simpl; [discriminate|].
  destruct (cls c).
  - destruct b; [apply IH|discriminate].
  - specialize (IH false). destruct (JS.splitRuns cls false r);
      [congruence|discriminate].
Qed.

Lemma filterBoolean_app a b :
  JS.filterBoolean (a ++ b) = (JS.filterBoolean a ++ JS.filterBoolean b)%list.
Proof. apply List.filter_app. Qed.

(** The mode only decides whether a leading empty piece is emitted. *)
Lemma tokens_mode cls s :
  JS.filterBoolean (JS.splitRuns cls true s)
  = JS.filterBoolean (JS.splitRuns cls false s).
Proof. destruct s as [|c r]; simpl; [reflexivity|]. now destruct (cls c). Qed.

(** How the pieces of [a] and of what follows a separator fit together:
    the last piece of [a] is kept, or dropped when it is empty. *)
Lemma splitRuns_app cls w a b : cls w = true -> forall m,
  exists pre h,
    JS.splitRuns cls m a = (pre ++ [h])%list
    /\ (JS.splitRuns cls m (a +:+ String w b)
        = (pre ++ h :: JS.splitRuns cls true b)%list
        \/ (h = EmptyString
            /\ JS.splitRuns cls m (a +:+ String w b)
               = (pre ++ JS.splitRuns cls true b)%list
            /\ (m = true \/ pre <> []))).
Proof.
  intros Hw. induction a as [|c a IH]; intros m.
  - exists [], EmptyString. simpl. rewrite Hw. split; [reflexivity|].
    destruct m; [right|left]; auto.
  - simpl. destruct (cls c) eqn:Hc.
    + destruct (IH true) as (pre & h & E1 & E2). destruct m.
      * exists pre, h. split; [exact E1|]. destruct E2 as [E2|(? & E2 & _)];
          [left|right]; auto.
      * exists (EmptyString :: pre), h. rewrite E1. split; [reflexivity|].
        destruct E2 as [E2|(? & E2 & _)]; rewrite E2;
          [left|right; repeat split]; auto.
    + destruct (IH false) as (pre & h & E1 & E2). rewrite E1.
      destruct pre as [|p ps].
      * exists [], (String c h). split; [reflexivity|]. left.
        destruct E2 as [E2|(_ & _ & [?|?])]; [|congruence..].
        now rewrite E2.
      * exists (String c p :: ps), h. split; [reflexivity|].
        destruct E2 as [E2|(? & E2 & _)]; rewrite E2;
          [left|right; repeat split]; auto.
Qed.

Lemma tokens_app_cls cls w a b m : cls w = true ->
  JS.filterBoolean (JS.splitRuns cls m (a +:+ String w b))
  = (JS.filterBoolean (JS.splitRuns cls m a)
     ++ JS.filterBoolean (JS.splitRuns cls false b))%list.
Proof.
  intros Hw. destruct (splitRuns_app cls w a b Hw m) as (pre & h & E1 & E2).
  rewrite E1, <- tokens_mode.
  destruct E2 as [E2|(-> & E2 & _)]; rewrite E2.
  - change (h :: JS.splitRuns cls true b)
      with ([h] ++ JS.splitRuns cls true b)%list.
    now rewrite !filterBoolean_app, app_assoc.
  - rewrite !filterBoolean_app. simpl. now rewrite app_nil_r.
Qed.

Lemma tokens_app w a b : JS.isWhiteSpace w = true ->
  tokens (a +:+ String w b) = (tokens a ++ tokens b)%list.
Proof. intros Hw. now apply tokens_app_cls. Qed.

(** Every piece of a split is free of separators. *)
Lemma splitRuns_pieces cls s : forall b p,
  In p (JS.splitRuns cls b s) -> anyChar cls p = false.
Proof.
  induction s as [|c r IH]; intros b p; simpl.
  - intros [<-|[]]. reflexivity.
  - destruct (cls c) eqn:Hc.
    + destruct b; [apply IH|]. intros [<-|Hp]; [reflexivity|].
      now apply (IH true).
    + specialize (IH false).
      destruct (JS.splitRuns cls false r) as [|h t]; simpl.
      * intros [<-|[]]. simpl. now rewrite Hc.
      * intros [<-|Hp]; [|apply IH; now right].
        simpl. rewrite Hc. apply IH. now left.
Qed.

Lemma tokens_clean s t : In t (tokens s) -> clean t = true.
Proof.
  unfold tokens, JS.filterBoolean. intros Ht.
  apply List.filter_In in Ht as [Hin Hne].
  unfold clean. rewrite Hne. simpl.
  change (anyChar JS.isWhiteSpace t) with (anyChar JS.cls_s t).
  now rewrite (splitRuns_pieces JS.cls_s s false t Hin).
Qed.

(** A clean value in front of a separator is the first token. *)
Lemma tokens_clean_prefix t w b :
  clean t = true -> JS.isWhiteSpace w = true ->
  tokens (t +:+ String w b) = t :: tokens b.
Proof.
  intros Ht Hw. rewrite (tokens_app w t b Hw). f_equal.
  unfold clean in Ht. apply andb_true_iff in Ht as [Hne Hws].
  apply negb_true_iff in Hws. unfold tokens.
  assert (H : forall s, anyChar JS.isWhiteSpace s = false ->
                        JS.splitRuns JS.cls_s false s = [s]).
  { induction s as [|c r IH]; simpl; [reflexivity|]. intros Hs.
    apply orb_false_iff in Hs as [Hc Hr]. unfold JS.cls_s at 1.
    rewrite Hc, (IH Hr). reflexivity. }
  rewrite (H t Hws). simpl. now rewrite Hne.
Qed.

Lemma tokens_clean_alone t : clean t = true -> tokens t = [t].
Proof.
  intros Ht. unfold clean in Ht. apply andb_true_iff in Ht as [Hne Hws].
  apply negb_true_iff in Hws. unfold tokens.
  assert (H : forall s, anyChar JS.isWhiteSpace s = false ->
                        JS.splitRuns JS.cls_s false s = [s]).
  { induction s as [|c r IH]; simpl; [reflexivity|]. intros Hs.
    apply orb_false_iff in Hs as [Hc Hr]. unfold JS.cls_s at 1.
    rewrite Hc, (IH Hr). reflexivity. }
  rewrite (H t Hws). simpl. now rewrite Hne.
Qed.

Lemma isLF_eq c : JS.isLF c = true -> c = ascii_of_nat 10.
Proof.
  unfold JS.isLF. intros H. apply Nat.eqb_eq in H.
  rewrite <- (ascii_nat_embedding c). now rewrite H.
Qed.

Lemma isCR_eq c : JS.isCR c = true -> c = ascii_of_nat 13.
Proof.
  unfold JS.isCR. intros H. apply Nat.eqb_eq in H.
  rewrite <- (ascii_nat_embedding c). now rewrite H.
Qed.

(** The first line of a text and the text after its terminator. *)
Lemma splitLines_cases s :
  exists l ls,
    JS.splitLines s = l :: ls
    /\ ((ls = [] /\ s = l)
        \/ exists rest,
             ls = JS.splitLines rest
             /\ (String.length rest < String.length s)%nat
             /\ (s = l +:+ String (ascii_of_nat 10) rest
                 \/ s = l +:+ String (ascii_of_nat 13)
                                (String (ascii_of_nat 10) rest))).
Proof.
  induction s as [|c r IH].
  - exists EmptyString, []. split; [reflexivity|]. left. auto.
  - cbn [JS.splitLines]. destruct (JS.isLF c) eqn:Hc.
    + exists EmptyString, (JS.splitLines r). split; [reflexivity|].
      right. exists r. rewrite (isLF_eq c Hc). simpl.
      split; [reflexivity|]. split; [lia|]. now left.
    + assert (Hcons : exists l ls,
                 JS.consHead c (JS.splitLines r) = l :: ls
                 /\ ((ls = [] /\ String c r = l)
                     \/ exists rest,
                          ls = JS.splitLines rest
                          /\ (String.length rest < String.length (String c r))%nat
                          /\ (String c r = l +:+ String (ascii_of_nat 10) rest
                              \/ String c r
                                 = l +:+ String (ascii_of_nat 13)
                                           (String (ascii_of_nat 10) rest)))).
      { destruct IH as (l & ls & E & Hs). rewrite E. simpl.
        exists (String c l), ls. split; [reflexivity|].
        destruct Hs as [[-> ->]|(rest & -> & Hlen & Hs)]; [left; auto|].
        right. exists rest. split; [reflexivity|]. simpl. split; [lia|].
        destruct Hs as [-> | ->]; [left|right]; reflexivity. }
      destruct r as [|c' r']; [exact Hcons|].
      destruct (JS.isCR c && JS.isLF c') eqn:Hcc; [|exact Hcons].
      apply andb_true_iff in Hcc as [H1 H2].
      exists EmptyString, (JS.splitLines r'). split; [reflexivity|].
      right. exists r'. rewrite (isCR_eq c H1), (isLF_eq c' H2). simpl.
      split; [reflexivity|]. split; [lia|]. now right.
Qed.

Lemma tokens_lines_aux : forall n s, (String.length s <= n)%nat ->
  List.concat (List.map tokens (JS.splitLines s)) = tokens s.
Proof.
  induction n as [|n IH]; intros s Hn.
  - destruct s; [reflexivity|simpl in Hn; lia].
  - destruct (splitLines_cases s) as (l & ls & E & Hs). rewrite E. simpl.
    destruct Hs as [[-> ->]|(rest & -> & Hlen & Hs)];
      [simpl; now rewrite app_nil_r|].
    rewrite (IH rest) by lia.
    destruct Hs as [-> | ->].
    + now rewrite tokens_app.
    + rewrite tokens_app by reflexivity.
      change (String (ascii_of_nat 10) rest)
        with (EmptyString +:+ String (ascii_of_nat 10) rest).
      now rewrite tokens_app.
Qed.

Lemma tokens_lines s :
  List.concat (List.map tokens (JS.filterBoolean (JS.splitLines s)))
  = tokens s.
Proof.
  rewrite <- (tokens_lines_aux (String.length s) s (le_n _)).
  induction (JS.splitLines s) as [|l ls IH]; [reflexivity|].
  simpl. destruct l; simpl; now rewrite IH.
Qed.

(** ** Further facts about the readers *)

Lemma streamReads_cons x stream n :
  streamReads (x :: stream) (S n) = x :: streamReads stream n.
Proof. reflexivity. Qed.

Lemma streamReads_nil n :
  streamReads [] (S n) = Reader.Throws Reader.exhausted :: streamReads [] n.
Proof.
  unfold streamReads. rewrite !take_nil. cbn [length].
  now rewrite !Nat.sub_0_r.
Qed.

Lemma at_index_lookup (xs : list string) i x :
  xs !! i = Some x -> Reader.at_index xs i = Reader.Token x.
Proof. unfold Reader.at_index. now intros ->. Qed.

Lemma next_inside (xs : list string) i x :
  xs !! i = Some x -> Reader.next xs i = (Reader.Token x, S i).
Proof.
  intros Hx. unfold Reader.next.
  assert (Hlt : (i <? length xs)%nat = true)
    by (apply Nat.ltb_lt; eapply lookup_lt_Some; eauto).
  now rewrite Hlt, (at_index_lookup xs i x Hx).
Qed.

Lemma next_outside (xs : list string) i :
  xs !! i = None ->
  Reader.next xs i = (Reader.Throws Reader.exhausted, i).
Proof.
  intros Hx. unfold Reader.next.
  assert (Hlt : (i <? length xs)%nat = false)
    by (apply Nat.ltb_ge; now apply lookup_ge_None).
  now rewrite Hlt.
Qed.

Lemma reads_SpaceSeparated (xs : list string) : forall n i,
  Reader.reads n (Reader.SpaceSeparated xs i)
  = streamReads (List.map Reader.Token (drop i xs)) n.
Proof.
  induction n as [|n IH]; intros i; [reflexivity|].
  cbn [Reader.reads Reader.inputProcessor].
  destruct (xs !! i) as [x|] eqn:Hx.
  - rewrite (next_inside xs i x Hx), IH, (drop_S xs x i Hx). reflexivity.
  - rewrite (next_outside xs i Hx), IH.
    rewrite (drop_ge xs i) by now apply lookup_ge_None.
    simpl. now rewrite streamReads_nil.
Qed.

Lemma reads_Multiline (lines : list string) : forall n li (cur : list string) ni,
  Reader.reads n (Reader.Multiline lines li cur ni)
  = streamReads (List.map Reader.Token (drop ni cur)
                 ++ List.flat_map lineReads (drop li lines)) n.
Proof.
  induction n as [|n IH]; intros li cur ni; [reflexivity|].
  cbn [Reader.reads Reader.inputProcessor].
  destruct (cur !! ni) as [x|] eqn:Hx.
  - assert (Hlt : (ni <? length cur)%nat = true)
      by (apply Nat.ltb_lt; eapply lookup_lt_Some; eauto).
    rewrite Hlt, (at_index_lookup cur ni x Hx), IH, (drop_S cur x ni Hx).
    reflexivity.
  - assert (Hge : (ni <? length cur)%nat = false)
      by (apply Nat.ltb_ge; now apply lookup_ge_None).
    rewrite Hge, (drop_ge cur ni) by now apply lookup_ge_None.
    destruct (lines !! li) as [line|] eqn:Hl.
    + assert (Hlt : (li <? length lines)%nat = true)
        by (apply Nat.ltb_lt; eapply lookup_lt_Some; eauto).
      rewrite Hlt. change (default EmptyString (Some line)) with line.
      cbv zeta. fold (tokens line).
      rewrite IH, (drop_S lines line li Hl). cbn [List.flat_map].
      assert (Hline : lineReads line
                      = match tokens line with
                        | [] => [Reader.Undefined]
                        | ts => List.map Reader.Token ts
                        end) by reflexivity.
      rewrite Hline. destruct (tokens line) as [|t ts]; reflexivity.
    + assert (Hge' : (li <? length lines)%nat = false)
        by (apply Nat.ltb_ge; now apply lookup_ge_None).
      rewrite Hge', IH.
      rewrite (drop_ge cur ni) by now apply lookup_ge_None.
      rewrite (drop_ge lines li) by now apply lookup_ge_None.
      simpl. now rewrite streamReads_nil.
Qed.

Lemma flat_map_lineReads (lines : list string) :
  Forall (fun l => tokens l <> []) lines ->
  List.flat_map lineReads lines
  = List.map Reader.Token (List.concat (List.map tokens lines)).
Proof.
  induction 1 as [|l ls Hl _ IH]; [reflexivity|].
  simpl. rewrite IH, List.map_app. f_equal.
  unfold lineReads. destruct (tokens l); [congruence|reflexivity].
Qed.

(** X1. Under the three sequential formats the reader hands out the
    white-space separated values of the input in order and, once they are
    used up, throws the exhaustion error on every further read. *)
Theorem sequential_reads_are_tokens :
  forall (fmt inp : string) (n : nat),
    fmt <> "single_integer" -> fmt <> "single_string" ->
    fmt <> "space_separated_integers" -> fmt <> "multiline_integers" ->
    fmt <> "space_separated_with_operator" ->
    Reader.reads n (Reader.make "space_separated_integers" inp)
    = streamReads (List.map Reader.Token (tokens inp)) n
    /\ Reader.reads n (Reader.make "space_separated_with_operator" inp)
       = streamReads (List.map Reader.Token (tokens inp)) n
    /\ Reader.reads n (Reader.make fmt inp)
       = streamReads (List.map Reader.Token (tokens inp)) n.
Proof.
  intros fmt inp n H1 H2 H3 H4 H5.
  rewrite (make_fallback fmt inp H1 H2 H3 H4 H5).
  rewrite (splitRuns_ext JS.cls_s_n JS.cls_s cls_s_n_eq).
  change (Reader.make "space_separated_integers" inp)
    with (Reader.SpaceSeparated (tokens inp) 0).
  change (Reader.make "space_separated_with_operator" inp)
    with (Reader.WithOperator (tokens inp) 0).
  fold (tokens inp).
  rewrite <- reads_sequential_operator, <- reads_sequential_fallback.
  rewrite reads_SpaceSeparated. auto.
Qed.

Lemma sequential_reads_are_tokens_witness :
  Reader.reads 3 (Reader.make "space_separated_integers" "  7   8 ")
  = streamReads [Reader.Token "7"; Reader.Token "8"] 3
  /\ Reader.reads 3 (Reader.make "space_separated_with_operator" "  7   8 ")
     = streamReads [Reader.Token "7"; Reader.Token "8"] 3
  /\ Reader.reads 3 (Reader.make "matrix" "  7   8 ")
     = streamReads [Reader.Token "7"; Reader.Token "8"] 3.
Proof.
  apply (sequential_reads_are_tokens "matrix" "  7   8 " 3); discriminate.
Defined.

Lemma In_streamReads stream n v :
  In v (streamReads stream n) ->
  In v stream \/ v = Reader.Throws Reader.exhausted.
Proof.
  unfold streamReads. intros H. apply in_app_or in H as [H|H].
  - left. rewrite <- (firstn_skipn n stream). apply in_or_app. now left.
  - right. apply list_elem_of_In in H. now apply elem_of_replicate in H.
Qed.

(** X2. A program reading under [space_separated_integers] is never
    handed an empty value, a value with white space in it, or
    [undefined]: every read is a clean token or the exhaustion error. *)
Theorem sequential_reads_are_clean :
  forall (inp : string) (n : nat) (v : Reader.readResult),
    In v (Reader.reads n (Reader.make "space_separated_integers" inp)) ->
    v = Reader.Throws "No more input values available"
    \/ exists t, v = Reader.Token t /\ clean t = true.
Proof.
  intros inp n v.
  change (Reader.make "space_separated_integers" inp)
    with (Reader.SpaceSeparated (tokens inp) 0).
  rewrite reads_SpaceSeparated. intros H.
  apply In_streamReads in H as [H|H]; [right|now left].
  apply List.in_map_iff in H as (t & <- & Ht).
  exists t. split; [reflexivity|]. eapply tokens_clean; eauto.
Qed.

Lemma sequential_reads_are_clean_witness :
  Reader.Token "8" = Reader.Throws "No more input values available"
  \/ exists t, Reader.Token "8" = Reader.Token t /\ clean t = true.
Proof.
  apply (sequential_reads_are_clean (" 7 " +:+ nl +:+ "8") 2).
  vm_compute. auto.
Defined.

Lemma tokens_joinWith ts :
  forallb clean ts = true -> tokens (joinWith " " ts) = ts.
Proof.
  induction ts as [|x rest IH]; [reflexivity|].
  intros H. apply andb_true_iff in H as [Hx Hrest].
  destruct rest as [|y rest']; [now apply tokens_clean_alone|].
  change (joinWith " " (x :: y :: rest'))
    with (x +:+ String " " (joinWith " " (y :: rest'))).
  rewrite tokens_clean_prefix by auto. now rewrite IH.
Qed.

(** X3. Round trip: an input written as clean values joined by single
    spaces is read back, under [space_separated_integers], as exactly
    those values in order, followed by the exhaustion error. *)
Theorem joined_values_read_back :
  forall (values : list string) (n : nat),
    forallb clean values = true ->
    Reader.reads n
      (Reader.make "space_separated_integers" (joinWith " " values))
    = streamReads (List.map Reader.Token values) n.
Proof.
  intros values n Hv.
  change (Reader.make "space_separated_integers" (joinWith " " values))
    with (Reader.SpaceSeparated (tokens (joinWith " " values)) 0).
  now rewrite reads_SpaceSeparated, tokens_joinWith.
Qed.

Lemma joined_values_read_back_witness :
  Reader.reads 4
    (Reader.make "space_separated_integers" (joinWith " " ["12"; "+"; "-3"]))
  = streamReads [Reader.Token "12"; Reader.Token "+"; Reader.Token "-3"] 4.
Proof.
  apply (joined_values_read_back ["12"; "+"; "-3"] 4). reflexivity.
Defined.

(** X4. Under [multiline_integers] the reader hands out, line after line
    of the non-empty lines of the input, the values of the line, or
    [undefined] once for a line that holds white space only; after the
    last line it throws the exhaustion error on every further read. *)
Theorem multiline_reads_stream :
  forall (inp : string) (n : nat),
    Reader.reads n (Reader.make "multiline_integers" inp)
    = streamReads
        (List.flat_map lineReads (JS.filterBoolean (JS.splitLines inp))) n.
Proof.
  intros inp n.
  change (Reader.make "multiline_integers" inp)
    with (Reader.Multiline (JS.filterBoolean (JS.splitLines inp)) 0 [] 0).
  now rewrite reads_Multiline.
Qed.

(** X5. When no line of the input consists of white space only,
    [multiline_integers] and [space_separated_integers] read the same
    input identically: line structure is then invisible to the program. *)
Theorem multiline_agrees_with_space_separated :
  forall (inp : string) (n : nat),
    Forall (fun l => tokens l <> [])
      (JS.filterBoolean (JS.splitLines inp)) ->
    Reader.reads n (Reader.make "multiline_integers" inp)
    = Reader.reads n (Reader.make "space_separated_integers" inp).
Proof.
  intros inp n Hlines.
  change (Reader.make "multiline_integers" inp)
    with (Reader.Multiline (JS.filterBoolean (JS.splitLines inp)) 0 [] 0).
  change (Reader.make "space_separated_integers" inp)
    with (Reader.SpaceSeparated (tokens inp) 0).
  rewrite reads_Multiline, reads_SpaceSeparated, !drop_0.
  cbn [List.map app].
  now rewrite (flat_map_lineReads _ Hlines), tokens_lines.
Qed.

Lemma multiline_agrees_with_space_separated_witness :
  Reader.reads 5
    (Reader.make "multiline_integers"
       ("2" +:+ String (ascii_of_nat 13) nl +:+ "10 20" +:+ nl +:+ nl))
  = Reader.reads 5
      (Reader.make "space_separated_integers"
         ("2" +:+ String (ascii_of_nat 13) nl +:+ "10 20" +:+ nl +:+ nl)).
Proof.
  apply (multiline_agrees_with_space_separated
           ("2" +:+ String (ascii_of_nat 13) nl +:+ "10 20" +:+ nl +:+ nl) 5).
  vm_compute. repeat constructor; discriminate.
Defined.

(** ** Further facts about trimming and grading *)

Lemma trimEnd_idempotent s : JS.trimEnd (JS.trimEnd s) = JS.trimEnd s.
Proof.
  induction s as [|c r IH]; [reflexivity|]. cbn [JS.trimEnd].
  destruct (JS.isWhiteSpace c && JS.isEmpty (JS.trimEnd r)) eqn:E;
    [reflexivity|].
  cbn [JS.trimEnd]. now rewrite IH, E.
Qed.

Lemma trimStart_trimEnd_trimStart s :
  JS.trimStart (JS.trimEnd (JS.trimStart s)) = JS.trimEnd (JS.trimStart s).
Proof.
  induction s as [|c r IH]; [reflexivity|]. cbn [JS.trimStart].
  destruct (JS.isWhiteSpace c) eqn:Hc; [exact IH|].
  cbn [JS.trimEnd]. rewrite Hc. cbn [andb JS.trimStart]. now rewrite Hc.
Qed.

Lemma trim_idempotent s : JS.trim (JS.trim s) = JS.trim s.
Proof.
  unfold JS.trim. now rewrite trimStart_trimEnd_trimStart, trimEnd_idempotent.
Qed.

(** X6. What [runCode] resolves with is never empty and carries no
    leading or trailing white space, so trimming it again, as both
    handlers do before grading, changes nothing. *)
Theorem runCode_output_is_trimmed :
  forall (G : Type) (python : string -> G -> Interp.prog G)
         (t : TestCase) (q : Question) (w w' : World G) (out : string),
    runCode python t q w = (inl out, w') ->
    out <> EmptyString /\ JS.trim out = out.
Proof.
  intros G python t q w w' out. unfold runCode.
  destruct (st_pyodide w) as [g|]; [|discriminate].
  destruct (Interp.exec _ _) as [[printed how] g'].
  destruct how; try discriminate.
  intros H. injection H as <- _. unfold orElse.
  destruct (JS.trim printed) as [|c r] eqn:E; cbn [JS.isEmpty].
  - split; [discriminate|reflexivity].
  - split; [discriminate|]. rewrite <- E. apply trim_idempotent.
Qed.

Lemma runCode_output_is_trimmed_witness :
  ("7" : string) <> EmptyString /\ JS.trim "7" = "7".
Proof.
  apply (runCode_output_is_trimmed unit Scenario.python
           (Scenario.test "  7 " "7" false) Scenario.spaced
           (Scenario.world "print(input())")
           (afterRun (Scenario.test "  7 " "7" false) tt
              (Scenario.world "print(input())"))).
  reflexivity.
Defined.

(** X7. Grading is symmetric: swapping the expected and the actual
    output never changes the verdict. *)
Theorem grading_is_symmetric :
  forall a b : string, Grading.passed a b = Grading.passed b a.
Proof.
  intros a b. unfold Grading.passed.
  destruct (Grading.tryParseFloat (Grading.normalize a)) as [x|];
    destruct (Grading.tryParseFloat (Grading.normalize b)) as [y|];
    try apply String.eqb_sym.
  unfold JS.abs, JS.sub.
  now rewrite (abs_SFsub_comm JS.prec JS.emax x y).
Qed.

Lemma SFsub_diag x :
  JS.sub x x
  = match x with
    | S754_zero _ | S754_finite _ _ _ => S754_zero false
    | _ => S754_nan
    end.
Proof.
  destruct x as [s|s| |s m e]; try reflexivity;
    try (destruct s; reflexivity).
  unfold JS.sub, SFsub. cbv zeta. rewrite Z.sub_diag. reflexivity.
Qed.

(** X8. An output graded against itself passes unless it reads as an
    infinite number (such as "1e999"): then the difference is not a
    number and the verdict is a failure. *)
Theorem grading_against_itself :
  forall s : string,
    Grading.passed s s
    = match JS.Number (Grading.normalize s) with
      | S754_infinity _ => false
      | _ => true
      end.
Proof.
  intros s. unfold Grading.passed, Grading.tryParseFloat.
  destruct (JS.Number (Grading.normalize s)) as [sg|sg| |sg m e] eqn:E;
    cbn [JS.isNaN]; rewrite ?SFsub_diag; try reflexivity.
  apply String.eqb_refl.
Qed.

(** ** Further facts about the orchestration *)

Lemma ready_runCode {G} python t q (w : World G) :
  ready w = true ->
  exists g' r, runCode python t q w = (r, afterRun t g' w).
Proof.
  intros Hr. destruct (ready_pyodide w Hr) as [g Hg].
  destruct (runCode_cases python t q w) as [[Hn _]|(g0 & g' & r & _ & E)];
    [congruence|eauto].
Qed.

Lemma ready_setOutput {G} s (w : World G) : ready (setOutput s w) = ready w.
Proof. reflexivity. Qed.

Lemma some_failed_no_hidden rs :
  forallb (fun x => negb (failed x)) rs = true ->
  existsb hiddenFailure rs = false.
Proof.
  intros H. exact (f_equal anyHiddenFailed (all_passed_summary rs H)).
Qed.

(** X9. [handleRun] never writes to the progress store and never marks a
    problem solved, and it hands at most one test to the interpreter: the
    first of the suite, when the interpreter is ready and the problem is
    known. *)
Theorem run_touches_no_progress :
  forall (G : Type) (python : string -> G -> Interp.prog G)
         (e : Env) (w : World G),
    db (handleRun python e w) = db w
    /\ st_solvedMap (handleRun python e w) = st_solvedMap w
    /\ setDocEvents (trace (handleRun python e w)) = setDocEvents (trace w)
    /\ runEvents (trace (handleRun python e w))
       = (runEvents (trace w)
          ++ match ready w, findQuestion e with
             | true, Some _ => take 1 (tests e)
             | _, _ => []
             end)%list.
Proof.
  intros G python e w. unfold handleRun.
  destruct (ready w) eqn:Hr; cbn [negb];
    [|now rewrite app_nil_r].
  destruct (findQuestion e) as [q|]; [|cbn; now rewrite app_nil_r].
  destruct (tests e) as [|t0 rest]; [cbn; now rewrite app_nil_r|].
  destruct (ready_runCode python t0 q (setOutput EmptyString w) Hr)
    as (g' & r & E).
  rewrite E. destruct r as [raw|msg]; cbn;
    now rewrite setDocEvents_app, runEvents_app, app_nil_r.
Qed.

(** X10. With the interpreter ready and the problem known, the report of
    [handleSubmit] is one of five texts, decided by the outcomes alone:
    the generic message if a hidden test failed; otherwise the detail
    blocks of the failing public tests, in suite order, if some test
    failed; otherwise nothing at all without a signed-in user, the error
    of the store if the write is rejected, and the success banner if it is
    accepted. *)
Theorem submit_report_cases :
  forall (G : Type) (python : string -> G -> Interp.prog G)
         (e : Env) (q : Question) (w : World G),
    ready w = true -> findQuestion e = Some q ->
    st_output (handleSubmit python e w)
    = reportOf e (results python q (tests e) w).
Proof.
  intros G python e q w Hr Hq.
  rewrite (handleSubmit_found python e q w Hr Hq).
  unfold conclude, reportOf. set (rs := results python q (tests e) w).
  unfold summary. cbn [anyHiddenFailed allPassed lines].
  destruct (existsb hiddenFailure rs); [reflexivity|].
  destruct (forallb (fun x => negb (failed x)) rs) eqn:Hall; [|reflexivity].
  pose proof (f_equal lines (all_passed_summary rs Hall)) as Hl.
  unfold summary in Hl. cbn [lines initialVerdict] in Hl. rewrite Hl.
  destruct (signedIn e); [|reflexivity].
  destruct (storeFault e); reflexivity.
Qed.

Lemma submit_report_cases_witness :
  st_output
    (handleSubmit Scenario.python
       (Scenario.env "easy-100"
          [Scenario.test "1" "2" false; Scenario.test "2" "2" true;
           Scenario.test "3" "4" false] None)
       (Scenario.world "print(input())"))
  = join ["Input:" +:+ nl +:+ "1" +:+ nl;
          "Expected Output:" +:+ nl +:+ "2" +:+ nl;
          "Your Output:" +:+ nl +:+ "1" +:+ nl;
          "Input:" +:+ nl +:+ "3" +:+ nl;
          "Expected Output:" +:+ nl +:+ "4" +:+ nl;
          "Your Output:" +:+ nl +:+ "3" +:+ nl].
Proof.
  exact (submit_report_cases unit Scenario.python
           (Scenario.env "easy-100"
              [Scenario.test "1" "2" false; Scenario.test "2" "2" true;
               Scenario.test "3" "4" false] None)
           Scenario.question (Scenario.world "print(input())")
           eq_refl eq_refl).
Defined.

(** X11. When every test passes for a signed-in user but the store
    rejects the write, the report is the store's error in place of the
    verdict, and nothing is recorded: the store and the component's
    solved map are as before, though the write was attempted once. *)
Theorem rejected_write_hides_verdict :
  forall (G : Type) (python : string -> G -> Interp.prog G)
         (e : Env) (q : Question) (u msg : string) (w : World G),
    ready w = true -> findQuestion e = Some q ->
    signedIn e = Some u -> storeFault e = Some msg ->
    forallb (fun x => negb (failed x)) (results python q (tests e) w) = true ->
    st_output (handleSubmit python e w) = "Error: " +:+ orElse msg "Error"
    /\ db (handleSubmit python e w) = db w
    /\ st_solvedMap (handleSubmit python e w) = st_solvedMap w
    /\ setDocEvents (trace (handleSubmit python e w))
       = (setDocEvents (trace w) ++ [EvSetDoc u (questionId e) (now e)])%list.
Proof.
  intros G python e q u msg w Hr Hq Hu Hf Hall.
  destruct (ready_pyodide w Hr) as [g Hg].
  destruct (worldAfter_trace python q (tests e) (setOutput EmptyString w) g Hg)
    as [Htr _].
  destruct (worldAfter_frame python q (tests e) (setOutput EmptyString w))
    as (_ & Hsm & Hdb & _ & _).
  rewrite (handleSubmit_found python e q w Hr Hq), (all_passed_summary _ Hall).
  unfold conclude. cbn [anyHiddenFailed allPassed initialVerdict].
  rewrite Hu, Hf. cbn [setOutput afterSetDoc st_output db st_solvedMap trace].
  rewrite Hdb, Hsm, setDocEvents_app, Htr, setDocEvents_app, setDocEvents_runs.
  cbn [setOutput trace db st_solvedMap]. now rewrite app_nil_r.
Qed.

Lemma rejected_write_hides_verdict_witness :
  let e :=
    withFault (Scenario.env "easy-100" [Scenario.test "1" "1" false]
                 Scenario.alice) "Missing or insufficient permissions." in
  let w := Scenario.world "print(input())" in
  st_output (handleSubmit Scenario.python e w)
  = "Error: Missing or insufficient permissions."
  /\ db (handleSubmit Scenario.python e w) = db w
  /\ st_solvedMap (handleSubmit Scenario.python e w) = st_solvedMap w
  /\ setDocEvents (trace (handleSubmit Scenario.python e w))
     = [EvSetDoc "alice" "easy-100" 1700000000000].
Proof.
  intros e w.
  exact (rejected_write_hides_verdict unit Scenario.python e Scenario.question
           "alice" "Missing or insufficient permissions." w
           eq_refl eq_refl eq_refl eq_refl eq_refl).
Defined.

Lemma handleSubmit_success {G} python e q u (w : World G) :
  ready w = true -> findQuestion e = Some q ->
  signedIn e = Some u -> storeFault e = None ->
  forallb (fun x => negb (failed x)) (results python q (tests e) w) = true ->
  let w1 := worldAfter python q (tests e) (setOutput EmptyString w) in
  handleSubmit python e w
  = setOutput (nl +:+ successBanner)
      (setSolvedMap (fun prev => <[questionId e := true]> prev)
         (afterSetDoc u (questionId e) (now e)
            (<[u := mergeSolved (questionId e) (nowISO e) (now e)
                      (default emptyDoc (db w !! u))]> (db w)) w1)).
Proof.
  intros Hr Hq Hu Hf Hall w1.
  destruct (worldAfter_frame python q (tests e) (setOutput EmptyString w))
    as (_ & _ & Hdb & _ & _).
  rewrite (handleSubmit_found python e q w Hr Hq), (all_passed_summary _ Hall).
  unfold conclude. cbn [anyHiddenFailed allPassed lines initialVerdict].
  rewrite Hu, Hf. fold w1. fold w1 in Hdb. cbn [setOutput db] in Hdb.
  now rewrite Hdb.
Qed.

Lemma conclude_keeps {G} e v (w : World G) :
  st_code (conclude e v w) = st_code w
  /\ st_loading (conclude e v w) = st_loading w
  /\ st_pyodide (conclude e v w) = st_pyodide w.
Proof.
  unfold conclude. destruct (anyHiddenFailed v); [repeat split|].
  destruct (if allPassed v then signedIn e else None); [|repeat split].
  destruct (storeFault e); repeat split.
Qed.

Lemma worldAfter_ready {G} python q ts (w : World G) :
  ready w = true -> ready (worldAfter python q ts w) = true.
Proof.
  intros Hr. destruct (ready_pyodide w Hr) as [g Hg].
  destruct (worldAfter_trace python q ts w g Hg) as [_ Hpy].
  destruct (worldAfter_frame python q ts w) as (_ & _ & _ & Hl & _).
  unfold ready in *. rewrite Hl.
  apply andb_true_iff in Hr as [Hr _]. rewrite Hr.
  now apply bool_decide_eq_true.
Qed.

Lemma ready_ext {G} (w w' : World G) :
  st_loading w' = st_loading w -> st_pyodide w' = st_pyodide w ->
  ready w' = ready w.
Proof. unfold ready. now intros -> ->. Qed.

Lemma handleSubmit_keeps {G} python e (w : World G) :
  st_code (handleSubmit python e w) = st_code w
  /\ (ready w = true -> ready (handleSubmit python e w) = true).
Proof.
  destruct (ready w) eqn:Hr;
    [|unfold handleSubmit; rewrite Hr; split; [reflexivity|discriminate]].
  destruct (findQuestion e) as [q|] eqn:Hq.
  - rewrite (handleSubmit_found python e q w Hr Hq).
    destruct (conclude_keeps e (summary (results python q (tests e) w))
                (worldAfter python q (tests e) (setOutput EmptyString w)))
      as (Hc & Hl & Hp).
    destruct (worldAfter_frame python q (tests e) (setOutput EmptyString w))
      as (_ & _ & _ & _ & Hc').
    split; [now rewrite Hc, Hc'|]. intros _.
    rewrite (ready_ext _ _ Hl Hp). now apply worldAfter_ready.
  - rewrite (handleSubmit_missing python e w Hr Hq). split; [reflexivity|auto].
Qed.

Lemma handleRun_keeps {G} python e (w : World G) :
  st_code (handleRun python e w) = st_code w
  /\ db (handleRun python e w) = db w
  /\ (ready w = true -> ready (handleRun python e w) = true).
Proof.
  unfold handleRun. destruct (ready w) eqn:Hr; cbn [negb];
    [|repeat split; discriminate].
  destruct (findQuestion e) as [q|]; [|repeat split; auto].
  destruct (tests e) as [|t0 rest]; [repeat split; auto|].
  destruct (ready_runCode python t0 q (setOutput EmptyString w) Hr)
    as (g' & r & E).
  rewrite E. apply andb_true_iff in Hr as [Hl _].
  destruct r; repeat split; intros _; unfold ready; cbn; now rewrite Hl.
Qed.

Lemma mergeSolved_mono qid iso ts d q :
  solved d !! q = Some true -> solved (mergeSolved qid iso ts d) !! q = Some true.
Proof.
  intros H. cbn [mergeSolved solved].
  destruct (decide (qid = q)) as [->|Hne];
    [apply lookup_insert_eq|now rewrite lookup_insert_ne].
Qed.

Lemma conclude_solved_mono {G} e v (w : World G) u q :
  solvedInStore w u q -> solvedInStore (conclude e v w) u q.
Proof.
  intros (d & Hd & Hq). unfold conclude.
  destruct (anyHiddenFailed v); [exists d; auto|].
  destruct (if allPassed v then signedIn e else None) as [u'|];
    [|exists d; auto].
  destruct (storeFault e); [exists d; auto|].
  unfold solvedInStore. cbn [setOutput setSolvedMap afterSetDoc db].
  destruct (decide (u' = u)) as [->|Hne].
  - rewrite lookup_insert_eq, Hd. eexists. split; [reflexivity|].
    now apply mergeSolved_mono.
  - rewrite lookup_insert_ne by exact Hne. exists d. auto.
Qed.

Lemma handleSubmit_solved_mono {G} python e (w : World G) u q :
  solvedInStore w u q -> solvedInStore (handleSubmit python e w) u q.
Proof.
  intros Hs. destruct (ready w) eqn:Hr;
    [|unfold handleSubmit; now rewrite Hr].
  destruct (findQuestion e) as [qq|] eqn:Hq.
  - rewrite (handleSubmit_found python e qq w Hr Hq).
    apply conclude_solved_mono.
    destruct (worldAfter_frame python qq (tests e) (setOutput EmptyString w))
      as (_ & _ & Hdb & _ & _).
    unfold solvedInStore. now rewrite Hdb.
  - now rewrite (handleSubmit_missing python e w Hr Hq).
Qed.

Lemma perform_keeps {G} python (a : action G) (w : World G) u q :
  st_code (perform python a w) = st_code w
  /\ (ready w = true -> ready (perform python a w) = true)
  /\ (solvedInStore w u q -> solvedInStore (perform python a w) u q).
Proof.
  destruct a as [py|e|e|e]; cbn [perform].
  - repeat split; auto.
  - destruct (handleRun_keeps python e w) as (Hc & Hdb & Hr).
    repeat split; auto. unfold solvedInStore. now rewrite Hdb.
  - destruct (handleSubmit_keeps python e w) as (Hc & Hr).
    repeat split; auto. apply handleSubmit_solved_mono.
  - unfold loadSolved. destruct (signedIn e); [|repeat split; auto].
    destruct (db w !! s); repeat split; auto.
Qed.

(** X12. Whatever the component goes through, in any order and with any
    collaborators (the interpreter finishing to load, runs, submissions,
    reloads of the progress), three things hold: a problem recorded as
    solved in the store stays recorded as solved, a ready interpreter
    stays ready, and the editor's text is left alone. *)
Theorem progress_is_never_lost :
  forall (G : Type) (python : string -> G -> Interp.prog G)
         (acts : list (action G)) (w : World G) (u q : string),
    (solvedInStore w u q -> solvedInStore (performAll python acts w) u q)
    /\ (ready w = true -> ready (performAll python acts w) = true)
    /\ st_code (performAll python acts w) = st_code w.
Proof.
  intros G python acts. unfold performAll.
  induction acts as [|a acts IH]; intros w u q; cbn [fold_left];
    [repeat split; auto|].
  destruct (perform_keeps python a w u q) as (Hc & Hr & Hs).
  destruct (IH (perform python a w) u q) as (IHs & IHr & IHc).
  repeat split; [auto|auto|now rewrite IHc].
Qed.

(** X13. Submitting a solved problem again, at a later moment, leaves the
    solved flags of the store and of the component as the first
    submission left them; the store receives one write per submission,
    each with the timestamp of its moment. *)
Theorem resubmission_changes_no_flag :
  forall (G : Type) (python : string -> G -> Interp.prog G)
         (e : Env) (q : Question) (u : string) (w : World G)
         (later : Z) (laterISO : string),
    ready w = true -> findQuestion e = Some q ->
    signedIn e = Some u -> storeFault e = None ->
    forallb (fun x => negb (failed x)) (results python q (tests e) w) = true ->
    forallb (fun x => negb (failed x))
      (results python q (tests e) (handleSubmit python e w)) = true ->
    let w1 := handleSubmit python e w in
    let w2 := handleSubmit python (atTime e later laterISO) w1 in
    (solved <$> db w2 !! u) = (solved <$> db w1 !! u)
    /\ st_solvedMap w2 = st_solvedMap w1
    /\ setDocEvents (trace w2)
       = (setDocEvents (trace w)
          ++ [EvSetDoc u (questionId e) (now e);
              EvSetDoc u (questionId e) later])%list.
Proof.
  intros G python e q u w later laterISO Hr Hq Hu Hf Hall1 Hall2 w1 w2.
  assert (Hr1 : ready w1 = true)
    by (apply (handleSubmit_keeps python e w); exact Hr).
  assert (E1 := handleSubmit_success python e q u w Hr Hq Hu Hf Hall1).
  assert (E2 := handleSubmit_success python (atTime e later laterISO) q u w1
                  Hr1 Hq Hu Hf Hall2).
  cbv zeta in E1, E2. fold w1 in E1. fold w2 in E2.
  cbn [atTime questionId now nowISO tests] in E2.
  destruct (ready_pyodide w Hr) as [g Hg].
  destruct (ready_pyodide w1 Hr1) as [g1 Hg1].
  destruct (worldAfter_trace python q (tests e) (setOutput EmptyString w) g Hg)
    as [Htr _].
  destruct (worldAfter_trace python q (tests e) (setOutput EmptyString w1)
              g1 Hg1) as [Htr1 _].
  destruct (worldAfter_frame python q (tests e) (setOutput EmptyString w1))
    as (_ & Hsm1 & _ & _ & _).
  assert (Hdb1 : db w1 !! u
                 = Some (mergeSolved (questionId e) (nowISO e) (now e)
                           (default emptyDoc (db w !! u))))
    by (rewrite E1; cbn; apply lookup_insert_eq).
  assert (Hs1 : st_solvedMap w1
                = <[questionId e := true]>
                    (st_solvedMap
                       (worldAfter python q (tests e)
                          (setOutput EmptyString w))))
    by (rewrite E1; reflexivity).
  assert (Ht1 : setDocEvents (trace w1)
                = (setDocEvents (trace w)
                   ++ [EvSetDoc u (questionId e) (now e)])%list).
  { rewrite E1. cbn [setOutput setSolvedMap afterSetDoc trace].
    rewrite setDocEvents_app, Htr, setDocEvents_app, setDocEvents_runs.
    cbn [setOutput trace]. now rewrite app_nil_r. }
  split; [|split].
  - rewrite E2. cbn [setOutput setSolvedMap afterSetDoc db].
    rewrite lookup_insert_eq, Hdb1.
    set (d0 := default emptyDoc (db w !! u)).
    change (Some (<[questionId e := true]>
                    (<[questionId e := true]> (solved d0)))
            = Some (<[questionId e := true]> (solved d0))).
    now rewrite insert_insert_eq.
  - rewrite E2. cbn [setOutput setSolvedMap afterSetDoc st_solvedMap].
    rewrite Hsm1. cbn [setOutput st_solvedMap]. rewrite Hs1.
    now rewrite insert_insert_eq.
  - rewrite E2. cbn [setOutput setSolvedMap afterSetDoc trace].
    rewrite setDocEvents_app, Htr1, setDocEvents_app, setDocEvents_runs.
    cbn [setOutput trace]. rewrite Ht1, app_nil_r, <- app_assoc. reflexivity.
Qed.

Lemma resubmission_changes_no_flag_witness :
  let e := Scenario.env "easy-100" [Scenario.test "1" "1" false]
             Scenario.alice in
  let w1 := handleSubmit Scenario.python e (Scenario.world "print(input())") in
  let w2 := handleSubmit Scenario.python
              (atTime e 1700000600000 "2023-11-14T22:23:20.000Z") w1 in
  (solved <$> db w2 !! "alice") = (solved <$> db w1 !! "alice")
  /\ st_solvedMap w2 = st_solvedMap w1
  /\ setDocEvents (trace w2)
     = [EvSetDoc "alice" "easy-100" 1700000000000;
        EvSetDoc "alice" "easy-100" 1700000600000].
Proof.
  intros e w1 w2.
  exact (resubmission_changes_no_flag unit Scenario.python e Scenario.question
           "alice" (Scenario.world "print(input())")
           1700000600000 "2023-11-14T22:23:20.000Z"
           eq_refl eq_refl eq_refl eq_refl eq_refl eq_refl).
Defined.

(** X14. Round trip through the store: after a submission that passes
    and is accepted, reloading the progress of the same user gives the
    component exactly the solved flags the store holds, and the problem
    just solved is among them. *)
Theorem solved_flag_survives_reload :
  forall (G : Type) (python : string -> G -> Interp.prog G)
         (e : Env) (q : Question) (u : string) (w : World G),
    ready w = true -> findQuestion e = Some q ->
    signedIn e = Some u -> storeFault e = None ->
    forallb (fun x => negb (failed x)) (results python q (tests e) w) = true ->
    let w' := loadSolved e (handleSubmit python e w) in
    Some (st_solvedMap w') = (solved <$> db w' !! u)
    /\ st_solvedMap w' !! questionId e = Some true
    /\ db w' = db (handleSubmit python e w).
Proof.
  intros G python e q u w Hr Hq Hu Hf Hall w'.
  assert (E := handleSubmit_success python e q u w Hr Hq Hu Hf Hall).
  cbv zeta in E.
  assert (Hdb : db (handleSubmit python e w) !! u
                = Some (mergeSolved (questionId e) (nowISO e) (now e)
                          (default emptyDoc (db w !! u))))
    by (rewrite E; cbn; apply lookup_insert_eq).
  subst w'. unfold loadSolved. rewrite Hu, Hdb.
  cbn [setSolvedMap st_solvedMap db]. rewrite Hdb.
  repeat split. cbn [mergeSolved solved]. apply lookup_insert_eq.
Qed.

Lemma solved_flag_survives_reload_witness :
  let e := Scenario.env "easy-100" [Scenario.test "1" "1" false]
             Scenario.alice in
  let w' := loadSolved e
              (handleSubmit Scenario.python e
                 (Scenario.world "print(input())")) in
  Some (st_solvedMap w') = (solved <$> db w' !! "alice")
  /\ st_solvedMap w' !! "easy-100" = Some true
  /\ db w' = db (handleSubmit Scenario.python e
                   (Scenario.world "print(input())")).
Proof.
  intros e w'.
  exact (solved_flag_survives_reload unit Scenario.python e Scenario.question
           "alice" (Scenario.world "print(input())")
           eq_refl eq_refl eq_refl eq_refl eq_refl).
Defined.

(** ** Facts about navigation *)

Section NavFacts.
Import Nav.

Lemma indexOf_range xs x : -1 <= indexOf xs x < Z.of_nat (length xs).
Proof.
  induction xs as [|y r IH]; cbn [indexOf length]; [lia|].
  destruct (String.eqb y x); [lia|].
  destruct (indexOf r x <? 0) eqn:E; [lia|]. apply Z.ltb_ge in E. lia.
Qed.

Lemma at_nat xs (i : nat) : at_ xs (Z.of_nat i) = xs !! i.
Proof.
  unfold at_. destruct (Z.of_nat i <? 0) eqn:E;
    [apply Z.ltb_lt in E; lia|]. now rewrite Nat2Z.id.
Qed.

(** [indexOf] finds the position of an element that occurs once. *)
Lemma indexOf_lookup xs : forall i x,
  NoDup xs -> xs !! i = Some x -> indexOf xs x = Z.of_nat i.
Proof.
  induction xs as [|y r IH]; intros i x Hnd Hx; [discriminate|].
  apply NoDup_cons in Hnd as [Hy Hnd]. cbn [indexOf].
  destruct i as [|i]; cbn in Hx.
  - injection Hx as ->. now rewrite String.eqb_refl.
  - destruct (String.eqb y x) eqn:E.
    + apply String.eqb_eq in E. subst y. exfalso. apply Hy.
      apply list_elem_of_lookup. eauto.
    + rewrite (IH i x Hnd Hx).
      destruct (Z.of_nat i <? 0) eqn:E'; [apply Z.ltb_lt in E'; lia|]. lia.
Qed.

Lemma indexOf_found xs x i :
  indexOf xs x = Z.of_nat i -> xs !! i = Some x.
Proof.
  revert i. induction xs as [|y r IH]; intros i; cbn [indexOf]; [lia|].
  destruct (String.eqb y x) eqn:E.
  - apply String.eqb_eq in E. subst y. intros H.
    assert (i = 0%nat) by lia. now subst i.
  - destruct (indexOf r x <? 0) eqn:E'; [lia|]. apply Z.ltb_ge in E'.
    intros H. destruct i as [|i]; [lia|]. cbn. apply IH. lia.
Qed.

Lemma indexOf_absent xs x : x ∉ xs -> indexOf xs x = -1.
Proof.
  intros Hx. pose proof (indexOf_range xs x) as Hr.
  destruct (Z.eq_dec (indexOf xs x) (-1)) as [E|E]; [exact E|].
  exfalso. apply Hx.
  assert (H : indexOf xs x = Z.of_nat (Z.to_nat (indexOf xs x))) by lia.
  apply indexOf_found in H. apply list_elem_of_lookup. eauto.
Qed.

Lemma idsOfLevel_elem all lvl i :
  i ∈ idsOfLevel all lvl <->
  exists q, q ∈ all /\ level q = lvl /\ id q = i.
Proof.
  unfold idsOfLevel. rewrite list_elem_of_In, List.in_map_iff. split.
  - intros (q & Hi & Hq). apply List.filter_In in Hq as [Hq Hl].
    apply String.eqb_eq in Hl. exists q. rewrite list_elem_of_In. auto.
  - intros (q & Hq & Hl & Hi). exists q. split; [exact Hi|].
    apply List.filter_In. rewrite <- list_elem_of_In.
    split; [exact Hq|]. now apply String.eqb_eq.
Qed.

Lemma NoDup_map_filter (all : list Question) f :
  NoDup (List.map id all) -> NoDup (List.map id (List.filter f all)).
Proof.
  induction all as [|q r IH]; cbn; [auto|].
  intros Hnd. apply NoDup_cons in Hnd as [Hq Hnd].
  destruct (f q); cbn; [|auto]. apply NoDup_cons. split; [|auto].
  intros Hin. apply Hq.
  apply list_elem_of_In, List.in_map_iff in Hin as (q' & E & Hq').
  apply List.filter_In in Hq' as [Hq' _].
  apply list_elem_of_In, List.in_map_iff. eauto.
Qed.

Lemma idsOfLevel_NoDup all lvl :
  wellFormed all -> NoDup (idsOfLevel all lvl).
Proof. intros [Hnd _]. now apply NoDup_map_filter. Qed.

Lemma idsOfLevel_level all lvl i :
  wellFormed all -> i ∈ idsOfLevel all lvl -> levelOf i = lvl.
Proof.
  intros [_ Hl] Hi. apply idsOfLevel_elem in Hi as (q & Hq & <- & <-).
  rewrite Forall_forall in Hl. apply Hl. exact Hq.
Qed.

End NavFacts.

Section NavTheorems.
Import Nav.

Lemma level_after_easy : at_ levels (indexOf levels "easy" + 1) = Some "medium".
Proof. reflexivity. Qed.
Lemma level_after_medium : at_ levels (indexOf levels "medium" + 1) = Some "hard".
Proof. reflexivity. Qed.
Lemma level_after_hard : at_ levels (indexOf levels "hard" + 1) = None.
Proof. reflexivity. Qed.
Lemma level_before_easy : at_ levels (indexOf levels "easy" - 1) = None.
Proof. reflexivity. Qed.
Lemma level_before_medium : at_ levels (indexOf levels "medium" - 1) = Some "easy".
Proof. reflexivity. Qed.
Lemma level_before_hard : at_ levels (indexOf levels "hard" - 1) = Some "medium".
Proof. reflexivity. Qed.

Lemma known_level lvl :
  lvl ∈ levels -> lvl = "easy" \/ lvl = "medium" \/ lvl = "hard".
Proof.
  unfold levels. intros H.
  repeat (apply elem_of_cons in H as [H|H]; [auto|]).
  now apply elem_of_nil in H.
Qed.

(** The position of the current problem in the list of its level. *)
Lemma current_position all qid :
  wellFormed all -> qid ∈ List.map id all ->
  exists i, idsOfLevel all (levelOf qid) !! i = Some qid
            /\ indexOf (idsOfLevel all (levelOf qid)) qid = Z.of_nat i
            /\ (i < length (idsOfLevel all (levelOf qid)))%nat.
Proof.
  intros Hwf Hin.
  assert (Hq : qid ∈ idsOfLevel all (levelOf qid)).
  { apply idsOfLevel_elem.
    apply list_elem_of_In, List.in_map_iff in Hin as (q & <- & Hq).
    apply list_elem_of_In in Hq.
    exists q. repeat split; auto. destruct Hwf as [_ Hl].
    rewrite Forall_forall in Hl. symmetry. now apply Hl. }
  apply list_elem_of_lookup in Hq as [i Hi]. exists i.
  split; [exact Hi|]. split.
  - apply indexOf_lookup; [now apply idsOfLevel_NoDup|exact Hi].
  - eapply lookup_lt_Some; eauto.
Qed.

(** Stepping across to the first problem of the next level and back. *)
Lemma across_and_back all lower upper qid n (i : nat) :
  wellFormed all ->
  at_ levels (indexOf levels upper - 1) = Some lower ->
  idsOfLevel all lower !! i = Some qid ->
  S i = length (idsOfLevel all lower) ->
  idsOfLevel all upper !! 0%nat = Some n ->
  prevId (navigate n all) = Some qid.
Proof.
  intros Hwf Hlv Hi Hlast Hn.
  assert (HLn : levelOf n = upper).
  { eapply idsOfLevel_level; eauto. apply list_elem_of_lookup. eauto. }
  unfold navigate. cbn [prevId]. rewrite HLn.
  rewrite (indexOf_lookup _ 0 n (idsOfLevel_NoDup all upper Hwf) Hn).
  change (0 <? Z.of_nat 0) with false. cbv iota. rewrite Hlv.
  assert (Hlower : lower <> EmptyString).
  { intros ->. revert Hlv. unfold at_.
    destruct (indexOf levels upper - 1 <? 0); [discriminate|].
    unfold levels. intros H.
    destruct (Z.to_nat (indexOf ["easy"; "medium"; "hard"] upper - 1))
      as [|[|[|k]]]; discriminate. }
  assert (Ht : truthy (Some lower) = true)
    by (cbn; destruct lower; [congruence|reflexivity]).
  rewrite Ht. change (default EmptyString (Some lower)) with lower.
  cbv zeta. rewrite <- Hlast.
  assert (Hpos : (0 <? Z.of_nat (S i)) = true) by (apply Z.ltb_lt; lia).
  rewrite Hpos.
  replace (Z.of_nat (S i) - 1) with (Z.of_nat i) by lia.
  now rewrite at_nat.
Qed.

Lemma back_and_across all lower upper qid p (i : nat) :
  wellFormed all ->
  at_ levels (indexOf levels lower + 1) = Some upper ->
  idsOfLevel all lower !! i = Some p ->
  S i = length (idsOfLevel all lower) ->
  idsOfLevel all upper !! 0%nat = Some qid ->
  nextId (navigate p all) = Some qid.
Proof.
  intros Hwf Hlv Hi Hlast Hq.
  assert (HLp : levelOf p = lower).
  { eapply idsOfLevel_level; eauto. apply list_elem_of_lookup. eauto. }
  unfold navigate. cbn [nextId]. rewrite HLp.
  rewrite (indexOf_lookup _ i p (idsOfLevel_NoDup all lower Hwf) Hi).
  rewrite <- Hlast.
  assert (Hc : (0 <=? Z.of_nat i) && (Z.of_nat i <? Z.of_nat (S i) - 1) = false).
  { apply andb_false_iff. right. apply Z.ltb_ge. lia. }
  rewrite Hc, Hlv.
  assert (Hupper : upper <> EmptyString).
  { intros ->. revert Hlv. unfold at_.
    destruct (indexOf levels lower + 1 <? 0); [discriminate|].
    unfold levels. intros H.
    destruct (Z.to_nat (indexOf ["easy"; "medium"; "hard"] lower + 1))
      as [|[|[|k]]]; discriminate. }
  assert (Ht : truthy (Some upper) = true)
    by (cbn; destruct upper; [congruence|reflexivity]).
  rewrite Ht. change (default EmptyString (Some upper)) with upper.
  cbv zeta.
  assert (Hpos : (0 <? Z.of_nat (length (idsOfLevel all upper))) = true).
  { apply Z.ltb_lt. apply lookup_lt_Some in Hq. lia. }
  rewrite Hpos. change 0 with (Z.of_nat 0). now rewrite at_nat.
Qed.

(** X15. In a well-formed bank (unique ids, each id prefixed by its
    level) and from a problem of the bank whose level is easy, medium or
    hard, Next and Previous undo each other, within a level and across
    the boundary between two levels. *)
Theorem next_and_previous_are_inverse :
  forall (all : list Question) (qid other : string),
    wellFormed all -> qid ∈ List.map id all -> levelOf qid ∈ levels ->
    (nextId (navigate qid all) = Some other ->
     prevId (navigate other all) = Some qid)
    /\ (prevId (navigate qid all) = Some other ->
        nextId (navigate other all) = Some qid).
Proof.
  intros all qid other Hwf Hin Hlvl.
  destruct (current_position all qid Hwf Hin) as (i & Hi & Hidx & Hlen).
  remember (levelOf qid) as L eqn:HL.
  pose proof (idsOfLevel_NoDup all L Hwf) as Hnd.
  split.
  - unfold navigate at 1. cbn [nextId]. rewrite <- HL, Hidx.
    destruct ((0 <=? Z.of_nat i)
              && (Z.of_nat i <? Z.of_nat (length (idsOfLevel all L)) - 1))
      eqn:Hc.
    + replace (Z.of_nat i + 1) with (Z.of_nat (S i)) by lia.
      rewrite at_nat. intros Hn.
      assert (HLn : levelOf other = L).
      { eapply idsOfLevel_level; eauto. apply list_elem_of_lookup. eauto. }
      unfold navigate. cbn [prevId]. rewrite HLn.
      rewrite (indexOf_lookup _ (S i) other Hnd Hn).
      assert (Hpos : (0 <? Z.of_nat (S i)) = true) by (apply Z.ltb_lt; lia).
      rewrite Hpos. replace (Z.of_nat (S i) - 1) with (Z.of_nat i) by lia.
      now rewrite at_nat.
    + assert (Hlast : S i = length (idsOfLevel all L)).
      { apply andb_false_iff in Hc as [Hc|Hc];
          [apply Z.leb_gt in Hc|apply Z.ltb_ge in Hc]; lia. }
      destruct (known_level L Hlvl) as [-> | [-> | ->]].
      * rewrite level_after_easy.
        change (truthy (Some "medium")) with true.
        change (default EmptyString (Some "medium")) with "medium".
        cbv zeta iota.
        destruct (0 <? Z.of_nat (length (idsOfLevel all "medium")));
          [|discriminate].
        change 0 with (Z.of_nat 0). rewrite at_nat. intros Hn.
        now apply (across_and_back all "easy" "medium" qid other i).
      * rewrite level_after_medium.
        change (truthy (Some "hard")) with true.
        change (default EmptyString (Some "hard")) with "hard".
        cbv zeta iota.
        destruct (0 <? Z.of_nat (length (idsOfLevel all "hard")));
          [|discriminate].
        change 0 with (Z.of_nat 0). rewrite at_nat. intros Hn.
        now apply (across_and_back all "medium" "hard" qid other i).
      * rewrite level_after_hard. discriminate.
  - unfold navigate at 1. cbn [prevId]. rewrite <- HL, Hidx.
    destruct (0 <? Z.of_nat i) eqn:Hc.
    + apply Z.ltb_lt in Hc. destruct i as [|j]; [lia|].
      replace (Z.of_nat (S j) - 1) with (Z.of_nat j) by lia.
      rewrite at_nat. intros Hp.
      assert (HLp : levelOf other = L).
      { eapply idsOfLevel_level; eauto. apply list_elem_of_lookup. eauto. }
      unfold navigate. cbn [nextId]. rewrite HLp.
      rewrite (indexOf_lookup _ j other Hnd Hp).
      assert (Hin' : (0 <=? Z.of_nat j)
                     && (Z.of_nat j <? Z.of_nat (length (idsOfLevel all L)) - 1)
                     = true).
      { apply andb_true_iff. split; [apply Z.leb_le|apply Z.ltb_lt]; lia. }
      rewrite Hin'. replace (Z.of_nat j + 1) with (Z.of_nat (S j)) by lia.
      now rewrite at_nat.
    + assert (Hz : i = 0%nat) by (apply Z.ltb_ge in Hc; lia). subst i.
      destruct (known_level L Hlvl) as [-> | [-> | ->]].
      * rewrite level_before_easy. discriminate.
      * rewrite level_before_medium.
        change (truthy (Some "easy")) with true.
        change (default EmptyString (Some "easy")) with "easy".
        cbv zeta iota.
        destruct (0 <? Z.of_nat (length (idsOfLevel all "easy"))) eqn:Hne;
          [|discriminate].
        apply Z.ltb_lt in Hne.
        replace (Z.of_nat (length (idsOfLevel all "easy")) - 1)
          with (Z.of_nat (length (idsOfLevel all "easy") - 1)) by lia.
        rewrite at_nat. intros Hp.
        apply (back_and_across all "easy" "medium" qid other
                 (length (idsOfLevel all "easy") - 1)); auto. lia.
      * rewrite level_before_hard.
        change (truthy (Some "medium")) with true.
        change (default EmptyString (Some "medium")) with "medium".
        cbv zeta iota.
        destruct (0 <? Z.of_nat (length (idsOfLevel all "medium"))) eqn:Hne;
          [|discriminate].
        apply Z.ltb_lt in Hne.
        replace (Z.of_nat (length (idsOfLevel all "medium")) - 1)
          with (Z.of_nat (length (idsOfLevel all "medium") - 1)) by lia.
        rewrite at_nat. intros Hp.
        apply (back_and_across all "medium" "hard" qid other
                 (length (idsOfLevel all "medium") - 1)); auto. lia.
Qed.

End NavTheorems.

Section NavEdges.
Import Nav.

Lemma bank_wellFormed : wellFormed Bank.all.
Proof.
  split.
  - apply (bool_decide_unpack _). vm_compute. reflexivity.
  - repeat constructor.
Qed.

Lemma next_and_previous_are_inverse_witness :
  nextId (navigate "easy-101" Bank.all) = Some "medium-200"
  /\ prevId (navigate "medium-200" Bank.all) = Some "easy-101"
  /\ prevId (navigate "easy-101" Bank.all) = Some "easy-100"
  /\ nextId (navigate "easy-100" Bank.all) = Some "easy-101".
Proof.
  assert (Hin : "easy-101" ∈ List.map id Bank.all)
    by (apply (bool_decide_unpack _); vm_compute; reflexivity).
  assert (Hlvl : levelOf "easy-101" ∈ levels)
    by (apply (bool_decide_unpack _); vm_compute; reflexivity).
  split; [reflexivity|]. split.
  - apply (next_and_previous_are_inverse Bank.all "easy-101" "medium-200"
             bank_wellFormed Hin Hlvl). reflexivity.
  - split; [reflexivity|].
    apply (next_and_previous_are_inverse Bank.all "easy-101" "easy-100"
             bank_wellFormed Hin Hlvl). reflexivity.
Defined.

(** X16. For an id whose level part names no level and whose level list
    is empty (a stray or malformed id), there is no previous problem,
    the next problem is the first easy one if there is one, and the Next
    button is disabled whatever has been solved. *)
Theorem stray_id_navigation :
  forall (all : list Question) (qid : string) (solvedMap : gmap string bool),
    levelOf qid ∉ levels ->
    idsOfLevel all (levelOf qid) = [] ->
    prevId (navigate qid all) = None
    /\ nextId (navigate qid all) = idsOfLevel all "easy" !! 0%nat
    /\ nextDisabled qid (navigate qid all) solvedMap = true.
Proof.
  intros all qid solvedMap Hlvl Hids.
  unfold nextDisabled, navigate.
  cbn [prevId nextId levelIds]. rewrite Hids.
  rewrite (indexOf_absent levels (levelOf qid) Hlvl).
  cbn [indexOf length]. repeat split.
  - change (at_ levels (-1 + 1)) with (Some "easy").
    change (truthy (Some "easy")) with true.
    change (default EmptyString (Some "easy")) with "easy".
    cbv iota zeta. cbn [andb Z.leb Z.compare].
    destruct (idsOfLevel all "easy") as [|x r]; reflexivity.
  - apply orb_true_r.
Qed.

Lemma stray_id_navigation_witness :
  prevId (navigate "warmup-1" Bank.all) = None
  /\ nextId (navigate "warmup-1" Bank.all) = Some "easy-100"
  /\ nextDisabled "warmup-1" (navigate "warmup-1" Bank.all) ∅ = true.
Proof.
  apply (stray_id_navigation Bank.all "warmup-1" ∅).
  - apply (bool_decide_unpack _). vm_compute. reflexivity.
  - reflexivity.
Defined.

Lemma allLevelSolved_insert ids qid (m : gmap string bool) :
  qid ∈ ids ->
  (forall i, i ∈ ids -> i <> qid -> truthyAt m i = true) ->
  allLevelSolved ids (<[qid := true]> m) = true.
Proof.
  intros Hin Hothers. unfold allLevelSolved. apply andb_true_iff. split.
  - apply Z.ltb_lt. destruct ids; [now apply elem_of_nil in Hin|cbn; lia].
  - apply forallb_forall. intros i Hi. apply list_elem_of_In in Hi.
    destruct (decide (i = qid)) as [->|Hne].
    + unfold truthyAt. now rewrite lookup_insert_eq.
    + rewrite <- (Hothers i Hi Hne). unfold truthyAt.
      now rewrite lookup_insert_ne by congruence.
Qed.

(** X17. Solving the last open problem of a level unlocks it: when the
    current problem closes its level, carries no flag in the solved map,
    has an id that is not the name of a member every object inherits, and
    every other problem of the level reads as solved, the Next button is
    disabled before the submission; after a submission that passes all
    tests and is accepted by the store, every problem of the level counts
    as solved and the button is enabled exactly when there is a next
    problem. *)
Theorem passing_the_last_problem_unlocks_next :
  forall (G : Type) (python : string -> G -> Interp.prog G)
         (e : Env) (q : Question) (u : string) (w : World G),
    ready w = true -> findQuestion e = Some q ->
    signedIn e = Some u -> storeFault e = None ->
    forallb (fun x => negb (failed x)) (results python q (tests e) w) = true ->
    let nav := navigate (questionId e) (allQuestions e) in
    questionId e ∈ levelIds nav ->
    isLastInLevel (questionId e) (levelIds nav) = true ->
    st_solvedMap w !! questionId e = None ->
    inherited (questionId e) = false ->
    (forall i, i ∈ levelIds nav -> i <> questionId e ->
               truthyAt (st_solvedMap w) i = true) ->
    nextDisabled (questionId e) nav (st_solvedMap w) = true
    /\ allLevelSolved (levelIds nav)
         (st_solvedMap (handleSubmit python e w)) = true
    /\ nextDisabled (questionId e) nav
         (st_solvedMap (handleSubmit python e w))
       = negb (truthy (nextId nav)).
Proof.
  intros G python e q u w Hr Hq Hu Hf Hall nav Hin Hlast Hopen Hown Hothers.
  assert (E := handleSubmit_success python e q u w Hr Hq Hu Hf Hall).
  cbv zeta in E.
  destruct (worldAfter_frame python q (tests e) (setOutput EmptyString w))
    as (_ & Hsm & _ & _ & _).
  assert (Hmap : st_solvedMap (handleSubmit python e w)
                 = <[questionId e := true]> (st_solvedMap w)).
  { rewrite E. cbn [setOutput setSolvedMap afterSetDoc st_solvedMap].
    now rewrite Hsm. }
  assert (Hsolved : allLevelSolved (levelIds nav)
                      (<[questionId e := true]> (st_solvedMap w)) = true)
    by now apply allLevelSolved_insert.
  split; [|split].
  - unfold nextDisabled. rewrite Hlast.
    assert (Hnot : allLevelSolved (levelIds nav) (st_solvedMap w) = false).
    { unfold allLevelSolved. apply andb_false_iff. right.
      apply not_true_is_false. intros Hfa.
      rewrite forallb_forall in Hfa.
      specialize (Hfa (questionId e)). unfold truthyAt in Hfa.
      rewrite Hopen, Hown in Hfa.
      apply list_elem_of_In in Hin. specialize (Hfa Hin). discriminate. }
    rewrite Hnot. apply orb_true_r.
  - now rewrite Hmap.
  - unfold nextDisabled. rewrite Hmap, Hsolved, Hlast.
    now rewrite orb_false_r.
Qed.

Lemma passing_the_last_problem_unlocks_next_witness :
  let e := Bank.env "easy-101" [Scenario.test "7" "7" false] in
  let w0 := Scenario.world "print(input())" in
  let w := setSolvedMap (fun _ => {["easy-100" := true]}) w0 in
  let nav := navigate "easy-101" Bank.all in
  nextDisabled "easy-101" nav (st_solvedMap w) = true
  /\ allLevelSolved (levelIds nav)
       (st_solvedMap (handleSubmit Scenario.python e w)) = true
  /\ nextDisabled "easy-101" nav
       (st_solvedMap (handleSubmit Scenario.python e w))
     = negb (truthy (nextId nav)).
Proof.
  intros e w0 w nav.
  apply (passing_the_last_problem_unlocks_next unit Scenario.python e
           (Bank.problem "easy-101" "easy" "space_separated_integers")
           "alice" w eq_refl eq_refl eq_refl eq_refl eq_refl).
  - apply (bool_decide_unpack _). vm_compute. reflexivity.
  - reflexivity.
  - reflexivity.
  - reflexivity.
  - intros i Hi Hne.
    change (levelIds (navigate (questionId e) (allQuestions e)))
      with ["easy-100"; "easy-101"] in Hi.
    apply elem_of_cons in Hi as [->|Hi]; [reflexivity|].
    apply elem_of_cons in Hi as [->|Hi]; [now contradict Hne|].
    now apply elem_of_nil in Hi.
Defined.

End NavEdges.

(** ** Facts about the input hook of the older variant *)

Section LegacyReaderFacts.
Import Reader LegacyReader.

Lemma splitOn_nonempty sep s : Nav.splitOn sep s <> [].
Proof.
  induction s as [|c r IH]; cbn; [discriminate|].
  destruct (Ascii.eqb c sep); [discriminate|].
  destruct (Nav.splitOn sep r); [congruence|discriminate].
Qed.

(** No piece of a split contains the separator. *)
Lemma splitOn_pieces sep s p :
  In p (Nav.splitOn sep s) -> includes sep p = false.
Proof.
  revert p. induction s as [|c r IH]; intros p; cbn [Nav.splitOn].
  - intros [<-|[]]. reflexivity.
  - destruct (Ascii.eqb c sep) eqn:Hc.
    + intros [<-|Hp]; [reflexivity|auto].
    + destruct (Nav.splitOn sep r) as [|h t]; cbn [JS.consHead].
      * intros [<-|[]]. unfold includes. cbn.
        rewrite Ascii.eqb_sym in Hc. now rewrite Hc.
      * intros [<-|Hp]; [|apply IH; now right].
        unfold includes. cbn. rewrite Ascii.eqb_sym in Hc. rewrite Hc.
        apply IH. now left.
Qed.

(** A text without the separator is the only piece of its split. *)
Lemma splitOn_alone sep s :
  includes sep s = false -> Nav.splitOn sep s = [s].
Proof.
  unfold includes. induction s as [|c r IH]; cbn; [reflexivity|].
  intros H. apply orb_false_iff in H as [Hc Hr].
  rewrite Ascii.eqb_sym in Hc. now rewrite Hc, (IH Hr).
Qed.

Lemma splitOn_first sep first tail :
  includes sep first = false ->
  Nav.splitOn sep (first +:+ String sep tail) = first :: Nav.splitOn sep tail.
Proof.
  unfold includes. induction first as [|c r IH].
  - intros _. change (EmptyString +:+ String sep tail) with (String sep tail).
    cbn [Nav.splitOn]. now rewrite Ascii.eqb_refl.
  - change (String c r +:+ String sep tail)
      with (String c (r +:+ String sep tail)).
    cbn [Nav.splitOn anyChar].
    intros H. apply orb_false_iff in H as [Hc Hr].
    rewrite Ascii.eqb_sym in Hc. now rewrite Hc, (IH Hr).
Qed.

Lemma includes_app c a b :
  includes c (a +:+ b) = includes c a || includes c b.
Proof.
  unfold includes. induction a as [|x r IH]; [reflexivity|].
  change (String x r +:+ b) with (String x (r +:+ b)).
  cbn [anyChar]. now rewrite IH, orb_assoc.
Qed.

Lemma handsOut_cons x stream n :
  handsOut (x :: stream) (S n) = x :: handsOut stream n.
Proof. reflexivity. Qed.

Lemma handsOut_nil n :
  handsOut [] (S n) = Throws exhausted :: handsOut [] n.
Proof.
  unfold handsOut. rewrite !take_nil. cbn [length].
  now rewrite !Nat.sub_0_r.
Qed.

(** Over lines that hold no space the hook is a plain cursor. *)
Lemma reads_plain (xs : list string) :
  Forall (fun x => includes " " x = false) xs ->
  forall n i,
    reads n {| inputLines := xs; inputIndex := i |}
    = handsOut (List.map Token (drop i xs)) n.
Proof.
  intros Hxs. induction n as [|n IH]; intros i; [reflexivity|].
  cbn [reads]. unfold inputProcessor. cbn [inputLines inputIndex].
  destruct (xs !! i) as [x|] eqn:Hx.
  - assert (Hlt : (i <? length xs)%nat = true)
      by (apply Nat.ltb_lt; eapply lookup_lt_Some; eauto).
    rewrite Hlt. change (default EmptyString (Some x)) with x. cbv zeta.
    assert (Hsp : includes " " x = false).
    { rewrite Forall_forall in Hxs. apply Hxs.
      apply list_elem_of_lookup. eauto. }
    rewrite Hsp. cbn [andb]. rewrite IH, (drop_S xs x i Hx). reflexivity.
  - assert (Hge : (i <? length xs)%nat = false)
      by (apply Nat.ltb_ge; now apply lookup_ge_None).
    rewrite Hge, IH, (drop_ge xs i) by now apply lookup_ge_None.
    cbn [List.map]. now rewrite handsOut_nil.
Qed.

Lemma fields_plain s :
  Forall (fun x => includes " " x = false) (Nav.splitOn " " s).
Proof.
  apply Forall_forall. intros x Hx. apply list_elem_of_In in Hx.
  eapply splitOn_pieces; eauto.
Qed.

(** X18. In the older variant an input of one line is handed out field
    by field as [split(" ")] cuts it, empty fields between consecutive
    spaces included, and then the hook throws for ever. *)
Theorem legacy_single_line_reads :
  forall (inp : string) (n : nat),
    includes (ascii_of_nat 10) inp = false ->
    reads n (make inp) = handsOut (List.map Token (Nav.splitOn " " inp)) n.
Proof.
  intros inp n Hnl. unfold make. rewrite Hnl.
  rewrite (reads_plain _ (fields_plain inp)). now rewrite drop_0.
Qed.

Lemma legacy_single_line_reads_witness :
  reads 4 (make "5  3")
  = [Token "5"; Token EmptyString; Token "3"; Throws exhausted].
Proof.
  exact (legacy_single_line_reads "5  3" 4 eq_refl).
Defined.

(** X19. In the older variant, when the first line of a multi-line input
    holds a space and starts with an integer, the hook replaces its lines
    by the fields of that line: it hands out those fields and then throws,
    and nothing after the first line is ever read. *)
Theorem legacy_drops_later_lines :
  forall (first tail : string) (n : nat),
    includes (ascii_of_nat 10) first = false ->
    includes " " first = true ->
    parseIntIsNaN (hd EmptyString (Nav.splitOn " " first)) = false ->
    reads n (make (first +:+ nl +:+ tail))
    = handsOut (List.map Token (Nav.splitOn " " first)) n.
Proof.
  intros first tail n Hnl Hsp Hint. unfold make.
  change (first +:+ nl +:+ tail)
    with (first +:+ String (ascii_of_nat 10) tail).
  rewrite includes_app. cbn [includes anyChar].
  change (Ascii.eqb (ascii_of_nat 10) (ascii_of_nat 10)) with true.
  rewrite orb_true_r. cbn [orb]. rewrite (splitOn_first _ first tail Hnl).
  destruct n as [|n]; [reflexivity|].
  cbn [reads]. unfold inputProcessor at 1. cbn [inputLines inputIndex length].
  change ((0 <? S (length (Nav.splitOn (ascii_of_nat 10) tail)))%nat)
    with true.
  cbn [lookup list_lookup]. change (default EmptyString (Some first)) with first.
  cbv zeta iota. rewrite Hsp, Hint. cbn [andb negb].
  rewrite (reads_plain _ (fields_plain first)).
  destruct (Nav.splitOn " " first) as [|f fs] eqn:E;
    [now apply splitOn_nonempty in E|].
  reflexivity.
Qed.

Lemma legacy_drops_later_lines_witness :
  reads 4 (make ("1 2" +:+ nl +:+ "3 4"))
  = [Token "1"; Token "2"; Throws exhausted; Throws exhausted].
Proof.
  exact (legacy_drops_later_lines "1 2" "3 4" 4 eq_refl eq_refl eq_refl).
Defined.

End LegacyReaderFacts.

(** ** Facts about [handleSubmit] of the older variant *)

Section LegacySubmitFacts.
Import LegacySubmit.
Context {G : Type}.
Variable python : string -> G -> Interp.prog G.
Variable errorName : string.

Lemma legacy_loop_outcomes code ts : forall c,
  let os := outcomes G python errorName code ts (c_globals G c) in
  let c' := loop G python errorName code ts c in
  c_allPassed G c' = c_allPassed G c && allPass os
  /\ c_lines G c' = (c_lines G c ++ publicBlocks os)%list
  /\ c_trace G c' = (c_trace G c ++ List.map EvRun ts)%list.
Proof.
  induction ts as [|t rest IH]; intros c; cbn [outcomes loop].
  - cbn. now rewrite andb_true_r, !app_nil_r.
  - specialize (IH (step G python errorName code t c)).
    cbv zeta in IH. destruct IH as (Ha & Hl & Ht).
    rewrite Ha, Hl, Ht. unfold step.
    destruct (runTest G python errorName code t (c_globals G c))
      as [[actualOutput passed] g'].
    cbn [c_allPassed c_lines c_globals c_trace].
    unfold allPass, publicBlocks. cbn [forallb List.flat_map List.map snd].
    repeat split.
    + now rewrite andb_assoc.
    + destruct (hidden t); cbn [app]; [reflexivity|now rewrite <- app_assoc].
    + now rewrite <- app_assoc.
Qed.

End LegacySubmitFacts.

(** X20. In the older variant, with the interpreter ready and a store
    that accepts writes, the report of a submission is one block per
    public test, passed or failed, in suite order, followed by the
    success banner exactly when every test, hidden ones included, passed
    and a user is signed in.  Hidden tests get no block: a hidden failure
    shows only as the missing banner, and, unlike in the current variant,
    it does not suppress the public blocks. *)
Theorem legacy_report_blocks :
  forall (G : Type) (python : string -> G -> Interp.prog G)
         (errorName : string) (e : Env) (w : World G) (g : G),
    st_pyodide w = Some g -> st_loading w = false ->
    storeFault e = None ->
    let os := LegacySubmit.outcomes G python errorName (st_code w)
                (tests e) g in
    st_output (LegacySubmit.handleSubmit G python errorName e w)
    = join (LegacySubmit.publicBlocks os
            ++ (if LegacySubmit.allPass os && bool_decide (is_Some (signedIn e))
                then [EmptyString; successBanner] else []))%list.
Proof.
  intros G python errorName e w g Hg Hl Hf os.
  unfold LegacySubmit.handleSubmit. rewrite Hg, Hl. cbv zeta.
  destruct (legacy_loop_outcomes python errorName (st_code w) (tests e)
              {| LegacySubmit.c_allPassed := true;
                 LegacySubmit.c_lines := [];
                 LegacySubmit.c_globals := g;
                 LegacySubmit.c_trace := trace w |}) as (Ha & Hlines & _).
  cbn [LegacySubmit.c_globals LegacySubmit.c_allPassed LegacySubmit.c_lines
       andb app] in Ha, Hlines.
  fold os in Ha, Hlines. rewrite Ha, Hlines, Hf.
  destruct (LegacySubmit.allPass os); cbn [andb].
  - destruct (signedIn e); cbn; [reflexivity|now rewrite app_nil_r].
  - cbn. now rewrite app_nil_r.
Qed.

Lemma legacy_report_blocks_witness :
  let suite := [Scenario.test "1" "1" false; Scenario.test "2" "3" true;
                Scenario.test "4" "5" false] in
  st_output
    (LegacySubmit.handleSubmit unit Scenario.python "PythonError"
       (Scenario.env "easy-100" suite Scenario.alice)
       (Scenario.world "print(input())"))
  = join [LegacySubmit.block (Scenario.test "1" "1" false) "1" true;
          LegacySubmit.block (Scenario.test "4" "5" false) "4" false].
Proof.
  intros suite.
  exact (legacy_report_blocks unit Scenario.python "PythonError"
           (Scenario.env "easy-100" suite Scenario.alice)
           (Scenario.world "print(input())") tt eq_refl eq_refl eq_refl).
Defined.

(** X21. In the older variant a submission never changes the component's
    solved map, even when it passes and the store records the problem as
    solved: the lock on the Next button stays as it was until the
    progress is loaded again. *)
Theorem legacy_submit_leaves_lock :
  forall (G : Type) (python : string -> G -> Interp.prog G)
         (errorName : string) (e : Env) (w : World G) (nav : Nav.NavState),
    let w' := LegacySubmit.handleSubmit G python errorName e w in
    st_solvedMap w' = st_solvedMap w
    /\ Nav.nextDisabled (questionId e) nav (st_solvedMap w')
       = Nav.nextDisabled (questionId e) nav (st_solvedMap w)
    /\ (forall u g,
           st_pyodide w = Some g -> st_loading w = false ->
           signedIn e = Some u -> storeFault e = None ->
           LegacySubmit.allPass
             (LegacySubmit.outcomes G python errorName (st_code w)
                (tests e) g) = true ->
           solvedInStore w' u (questionId e)).
Proof.
  intros G python errorName e w nav w'.
  assert (Hmap : st_solvedMap w' = st_solvedMap w).
  { subst w'. unfold LegacySubmit.handleSubmit.
    destruct (st_pyodide w); [|reflexivity].
    destruct (st_loading w); [reflexivity|]. cbv zeta.
    destruct (if LegacySubmit.c_allPassed G _ then signedIn e else None);
      [|reflexivity].
    destruct (storeFault e); reflexivity. }
  split; [exact Hmap|]. split; [now rewrite Hmap|].
  intros u g Hg Hl Hu Hf Hall. subst w'.
  unfold LegacySubmit.handleSubmit. rewrite Hg, Hl. cbv zeta.
  destruct (legacy_loop_outcomes python errorName (st_code w) (tests e)
              {| LegacySubmit.c_allPassed := true;
                 LegacySubmit.c_lines := [];
                 LegacySubmit.c_globals := g;
                 LegacySubmit.c_trace := trace w |}) as (Ha & _ & _).
  cbn [LegacySubmit.c_globals LegacySubmit.c_allPassed andb] in Ha.
  rewrite Ha, Hall, Hu, Hf. unfold solvedInStore. cbn [db].
  rewrite lookup_insert_eq. eexists. split; [reflexivity|].
  cbn [mergeSolved solved]. apply lookup_insert_eq.
Qed.

Lemma legacy_submit_leaves_lock_witness :
  let e := Bank.env "easy-101" [Scenario.test "7" "7" false] in
  let w := Scenario.world "print(input())" in
  let w' := LegacySubmit.handleSubmit unit Scenario.python "PythonError" e w in
  st_solvedMap w' = ∅
  /\ Nav.nextDisabled "easy-101" (Nav.navigate "easy-101" Bank.all)
       (st_solvedMap w') = true
  /\ solvedInStore w' "alice" "easy-101".
Proof.
  intros e w w'.
  destruct (legacy_submit_leaves_lock unit Scenario.python "PythonError" e w
              (Nav.navigate "easy-101" Bank.all)) as (Hm & Hn & Hs).
  split; [exact Hm|]. split; [exact (eq_trans Hn eq_refl)|].
  apply (Hs "alice" tt); reflexivity.
Defined.

Lemma progress_is_never_lost_witness :
  let e := Scenario.env "easy-100" [Scenario.test "1" "1" false]
             Scenario.alice in
  let broken := Scenario.env "easy-100" [Scenario.test "1" "2" false]
                  Scenario.alice in
  let w := handleSubmit Scenario.python e (Scenario.world "print(input())") in
  let later :=
    performAll Scenario.python
      [Run broken; Submit broken; LoadProgress e; Boot tt; Submit e] w in
  solvedInStore later "alice" "easy-100"
  /\ ready later = true
  /\ st_code later = "print(input())".
Proof.
  intros e broken w later.
  destruct (progress_is_never_lost unit Scenario.python
              [Run broken; Submit broken; LoadProgress e; Boot tt; Submit e]
              w "alice" "easy-100") as (Hs & Hr & Hc).
  split; [|split; [apply Hr; reflexivity|exact Hc]].
  apply Hs. eexists. split; [vm_compute; reflexivity|reflexivity].
Defined.

(** X22. When the run of the first test raises or outlives the deadline,
    [handleRun] reports "Error: " followed by what the program had
    printed, if anything, and otherwise by the message of the error (the
    time-limit message for a timeout, "Error" for an empty message): the
    input and the expected output are not shown. *)
Theorem run_reports_failure :
  forall (G : Type) (python : string -> G -> Interp.prog G)
         (e : Env) (q : Question) (t0 : TestCase) (rest : list TestCase)
         (w : World G) (g g' : G) (printed : string) (how : Interp.settle),
    ready w = true -> findQuestion e = Some q -> tests e = t0 :: rest ->
    st_pyodide w = Some g ->
    Interp.exec (python (st_code w) g)
      (Reader.make (input_format q) (input t0)) = (printed, how, g') ->
    how <> Interp.Completes ->
    st_output (handleRun python e w)
    = "Error: "
      +:+ orElse printed
            match how with
            | Interp.Raises msg => orElse msg "Error"
            | _ => "⏰ Time limit exceeded"
            end.
Proof.
  intros G python e q t0 rest w g g' printed how Hr Hq Ht Hg Hex Hhow.
  unfold handleRun. rewrite Hr, Hq, Ht. cbn [negb].
  unfold runCode. cbn [setOutput st_pyodide st_code]. rewrite Hg, Hex.
  destruct how as [|msg|]; [congruence| |];
    cbn [setOutput st_output]; unfold errorReport, orElse;
    destruct printed; cbn [JS.isEmpty]; reflexivity.
Qed.

Lemma run_reports_failure_witness :
  st_output
    (handleRun Scenario.python
       (Scenario.env "easy-100" [Scenario.test "1" "1" false] Scenario.alice)
       (Scenario.world "import asyncio; await asyncio.sleep(10)"))
  = "Error: ⏰ Time limit exceeded".
Proof.
  apply (run_reports_failure unit Scenario.python
           (Scenario.env "easy-100" [Scenario.test "1" "1" false]
              Scenario.alice)
           Scenario.question (Scenario.test "1" "1" false) []
           (Scenario.world "import asyncio; await asyncio.sleep(10)") tt tt EmptyString
           Interp.Outlives); try reflexivity.
  discriminate.
Defined.

Lemma lowerChar_whitespace c :
  JS.isWhiteSpace (JS.lowerChar c) = JS.isWhiteSpace c.
Proof. destruct c as [[] [] [] [] [] [] [] []]; reflexivity. Qed.

Lemma toLowerCase_isEmpty s : JS.isEmpty (JS.toLowerCase s) = JS.isEmpty s.
Proof. destruct s; reflexivity. Qed.

Lemma trimStart_toLowerCase s :
  JS.trimStart (JS.toLowerCase s) = JS.toLowerCase (JS.trimStart s).
Proof.
  induction s as [|c r IH]; [reflexivity|].
  cbn [JS.toLowerCase JS.trimStart]. rewrite lowerChar_whitespace.
  destruct (JS.isWhiteSpace c); [exact IH|reflexivity].
Qed.

Lemma trimEnd_toLowerCase s :
  JS.trimEnd (JS.toLowerCase s) = JS.toLowerCase (JS.trimEnd s).
Proof.
  induction s as [|c r IH]; [reflexivity|].
  cbn [JS.toLowerCase JS.trimEnd].
  rewrite lowerChar_whitespace, IH, toLowerCase_isEmpty.
  destruct (JS.isWhiteSpace c && JS.isEmpty (JS.trimEnd r)); reflexivity.
Qed.

Lemma trim_toLowerCase s :
  JS.trim (JS.toLowerCase s) = JS.toLowerCase (JS.trim s).
Proof.
  unfold JS.trim. now rewrite trimStart_toLowerCase, trimEnd_toLowerCase.
Qed.

(** X23. The current comparison extends the older one: whenever the
    older variant passes a pair of outputs, the current variant passes it
    too, unless the output reads as an infinite number. *)
Theorem current_grading_extends_legacy :
  forall expected captured : string,
    Legacy.passed expected captured = true ->
    Grading.passed expected captured
    = match JS.Number (Grading.normalize captured) with
      | S754_infinity _ => false
      | _ => true
      end.
Proof.
  intros expected captured H. unfold Legacy.passed in H.
  apply String.eqb_eq in H.
  assert (Hn : Grading.normalize expected = Grading.normalize captured).
  { unfold Grading.normalize.
    rewrite <- (trim_toLowerCase expected), <- H, trim_toLowerCase.
    now rewrite trim_idempotent. }
  unfold Grading.passed, Grading.tryParseFloat. rewrite Hn.
  destruct (JS.Number (Grading.normalize captured)) as [sg|sg| |sg m e];
    cbn [JS.isNaN]; rewrite ?SFsub_diag; try reflexivity.
  apply String.eqb_refl.
Qed.

Lemma current_grading_extends_legacy_witness :
  Grading.passed "TRUE" (" true" +:+ nl)
  = match JS.Number (Grading.normalize (" true" +:+ nl)) with
    | S754_infinity _ => false
    | _ => true
    end.
Proof.
  apply (current_grading_extends_legacy "TRUE" (" true" +:+ nl)).
  reflexivity.
Defined.
